(** * UmbrellaChain (gymnax, bsuite family): a shallow embedding

    Source: [src/gymnax/environments/bsuite/umbrella_chain.py].

    Modelling conventions.
    - Fields annotated [jnp.int32] hold 32-bit two's-complement integers.
      They are carried as [Z]; the cast [jnp.int32(...)] and the wrap-around
      of 32-bit addition are written out by [jnp_int32].  The predicate
      [int32] says that a [Z] is a value of that type.
    - Fields annotated [int] ([time], [chain_length],
      [max_steps_in_episode]) are unbounded integers, [Z].
    - The functions are modelled as they run eagerly on Python integers:
      [time], [chain_length] and the action are Python [int]s.
    - The observation is a [float32] array of shape [(1, 3 + n_distractor)].
      Its entries are carried as the rationals they denote.  Storing an
      integer rounds it to 24 significant bits ([float_of_int]); the
      quotient [time / chain_length] and the subtraction from 1 are rounded
      to 53 bits ([true_divide], [float_sub]) and the result to 24 bits on
      storing.  Rounding is to nearest, ties to even ([round_float]), with
      an unbounded exponent: a quotient below the smallest binary64 number
      is kept, which leaves [1 - quotient] unchanged, and a [float32]
      infinity (an entry of magnitude [2^128] or more) is not represented.
    - [jax.random] is an external library.  Keys are an abstract type with
      the two operations the environment uses, [random_split] and
      [random_bernoulli]; see [JaxRandom].
    - [step_env], [reset_env] and [get_obs] give the values a call returns.
      The exceptions a call can raise instead ([OverflowError] for an
      action or a quotient out of range, [ZeroDivisionError] for
      [chain_length = 0]) are in [step_env_call], [reset_env_call] and
      [get_obs_call].
    - [chain_length > 0] and [max_steps_in_episode > 0] are preconditions
      of the environment. *)

From Stdlib Require Import ZArith QArith Qround Qabs Qpower Qreduction.
From Stdlib Require Import Bool Lia Lqa.
From stdpp Require Import base list.

Open Scope Z_scope.

(** ** 32-bit integers *)

Definition int32_min : Z := - 2 ^ 31.
Definition int32_max : Z := 2 ^ 31 - 1.

(** [jnp.int32(z)]: reduction of [z] into the signed 32-bit range. *)
Definition jnp_int32 (z : Z) : Z := (z + 2 ^ 31) mod 2 ^ 32 - 2 ^ 31.

Definition int32 (z : Z) : Prop := int32_min <= z <= int32_max.

(** ** The external random-number interface *)

(** [random_split key num i] is child [i] of [jax.random.split(key, num)];
    [random_bernoulli key] is [jax.random.bernoulli(key, p=0.5, shape=())];
    [random_bernoulli_vec key n i] is entry [i] of
    [jax.random.bernoulli(key, p=0.5, shape=(n,))]. *)
Class JaxRandom (PRNGKey : Type) := {
  random_split : PRNGKey -> nat -> nat -> PRNGKey;
  random_bernoulli : PRNGKey -> bool;
  random_bernoulli_vec : PRNGKey -> nat -> nat -> bool
}.

(** A small counter-based generator, used to run the environment on
    concrete inputs. *)
Definition counter_split (key : Z) (num i : nat) : Z :=
  key * Z.of_nat num + Z.of_nat i + 1.

#[export] Instance counter_random : JaxRandom Z := {
  random_split := counter_split;
  random_bernoulli := Z.odd;
  random_bernoulli_vec := fun key _ i => Z.odd (key + Z.of_nat i)
}.

(** ** Data model *)

Record EnvState := mkEnvState {
  need_umbrella : Z;   (* jnp.int32 *)
  has_umbrella : Z;    (* jnp.int32 *)
  total_regret : Z;    (* jnp.int32 *)
  time : Z             (* int *)
}.

Record EnvParams := mkEnvParams {
  chain_length : Z;
  max_steps_in_episode : Z
}.

Record UmbrellaChain := mkUmbrellaChain {
  n_distractor : nat
}.

Definition default_params : EnvParams :=
  {| chain_length := 10; max_steps_in_episode := 100 |}.

(** The fields typed [jnp.int32] hold 32-bit values. *)
Definition wf_state (s : EnvState) : Prop :=
  int32 (need_umbrella s) /\ int32 (has_umbrella s) /\ int32 (total_regret s).

(** ** Array and scalar primitives *)

(** [lax.select(pred, on_true, on_false)] on converted operands.  The
    conversion of a Python integer operand to [int32], which raises when
    the value does not fit, is [convert_int32] below. *)
Definition lax_select {A : Type} (pred : bool) (on_true on_false : A) : A :=
  if pred then on_true else on_false.

(** [jnp.logical_and] on numeric arguments: both are nonzero. *)
Definition jnp_logical_and (a b : Z) : bool :=
  negb (a =? 0) && negb (b =? 0).

Definition jnp_logical_or (a b : bool) : bool := a || b.

(** [lax.stop_gradient] only cuts differentiation; values are unchanged. *)
Definition stop_gradient {A : Type} (x : A) : A := x.

(** An array of shape [(rows, cols)], row-major. *)
Definition array2 : Type := list (list Q).

Definition jnp_zeros (rows cols : nat) : array2 :=
  replicate rows (replicate cols 0%Q).

(** [a.at[i, j].set(v)]. *)
Definition at_set (i j : nat) (v : Q) (a : array2) : array2 :=
  alter (fun row => <[j := v]> row) i a.

(** Writing [vals] into a row from column [start] on. *)
Fixpoint set_from (start : nat) (vals : list Q) (row : list Q) : list Q :=
  match vals with
  | [] => row
  | v :: vs => <[start := v]> (set_from (S start) vs row)
  end.

(** [a.at[i, start:].set(vals)]. *)
Definition at_set_from (i start : nat) (vals : list Q) (a : array2) : array2 :=
  alter (set_from start vals) i a.

(** ** Floating point *)

(** The nearest integer, ties to even. *)
Definition round_half_even (q : Q) : Z :=
  let f := Qfloor q in
  match (q - inject_Z f ?= 1 # 2)%Q with
  | Lt => f
  | Eq => if Z.even f then f else f + 1
  | Gt => f + 1
  end.

(** For [q > 0], the exponent [e] of its leading bit:
    [2 ^ e <= q < 2 ^ (e + 1)]. *)
Definition Qlog2 (q : Q) : Z :=
  let l := Z.log2 (Qnum q) - Z.log2 (Zpos (Qden q)) in
  if Qle_bool (2 ^ l) q then l else l - 1.

(** Rounding to [prec] significant bits, to nearest, ties to even. *)
Definition round_float (prec : Z) (q : Q) : Q :=
  if Qeq_bool q 0 then 0%Q
  else
    let e := Qlog2 (Qabs q) - (prec - 1) in
    let m := round_half_even (Qabs q / 2 ^ e) in
    Qred (inject_Z (if Qle_bool 0 q then m else - m) * 2 ^ e).

Arguments round_float : simpl never.

Definition binary64 (q : Q) : Q := round_float 53 q.
Definition float32 (q : Q) : Q := round_float 24 q.

(** Python's [a / b] on integers: the correctly rounded quotient. *)
Definition true_divide (a b : Z) : Q := binary64 (inject_Z a / inject_Z b).

(** Python's [x - y] on floats. *)
Definition float_sub (x y : Q) : Q := binary64 (x - y).

(** Storing an integer, or a boolean, into a [float32] array. *)
Definition float_of_int (z : Z) : Q := float32 (inject_Z z).
Definition float_of_bool (b : bool) : Q := inject_Z (Z.b2z b).

(** ** Exceptions *)

Inductive Exception := OverflowError | ZeroDivisionError.

(** A call either raises an exception or returns a value. *)
Definition raising (A : Type) : Type := (Exception + A)%type.

Definition raise {A : Type} (e : Exception) : raising A := inl e.
Definition returns {A : Type} (x : A) : raising A := inr x.

Definition bind_raising {A B : Type} (c : raising A) (k : A -> raising B)
    : raising B :=
  match c with
  | inl e => inl e
  | inr x => k x
  end.

Notation "x <-- c ;; k" := (bind_raising c (fun x => k))
  (at level 100, c at next level, right associativity).

(** Converting a Python integer to [int32], as [lax.select] does with its
    operands: a value that does not fit raises [OverflowError]. *)
Definition convert_int32 (z : Z) : raising Z :=
  if (int32_min <=? z) && (z <=? int32_max) then returns z
  else raise OverflowError.

(** Python's [a / b] on integers as a call: division by zero raises
    [ZeroDivisionError], a quotient that rounds to [2^1024] or more raises
    [OverflowError]. *)
Definition true_divide_call (a b : Z) : raising Q :=
  if b =? 0 then raise ZeroDivisionError
  else if Qle_bool (2 ^ 1024) (Qabs (true_divide a b))
       then raise OverflowError
       else returns (true_divide a b).

(** Entry [(0, j)] of an observation. *)
Definition entry (obs : array2) (j : nat) : option Q :=
  obs !! 0%nat ≫= fun row => row !! j.

(** [spaces.Box(low, high, shape)]. *)
Record Box := mkBox {
  low : Q;
  high : Q;
  shape : nat * nat
}.

Record Info := mkInfo {
  info_discount : Q   (* the entry under key "discount" *)
}.

(** ** The environment *)

Section Environment.

Context {PRNGKey : Type} `{JaxRandom PRNGKey}.

Definition get_obs (self : UmbrellaChain) (state : EnvState)
    (key : PRNGKey) (params : EnvParams) : array2 :=
  let obs := jnp_zeros 1 (3 + n_distractor self) in
  let obs := at_set 0 0 (float_of_int (need_umbrella state)) obs in
  let obs := at_set 0 1 (float_of_int (has_umbrella state)) obs in
  let obs := at_set 0 2
    (float32 (float_sub 1 (true_divide (time state) (chain_length params))))
    obs in
  let obs := at_set_from 0 3
    (map (fun i => float_of_bool
                     (random_bernoulli_vec key (n_distractor self) i))
         (seq 0 (n_distractor self))) obs in
  obs.

Definition is_terminal (self : UmbrellaChain) (state : EnvState)
    (params : EnvParams) : bool :=
  let done_steps := time state >=? max_steps_in_episode params in
  let done_chain := time state =? chain_length params in
  jnp_logical_or done_steps done_chain.

(** Modelled from the spec: [discount] is a method of the base class
    [environment.Environment], which is not among the sources; the spec
    gives [discount = 0] in a terminal state and [1] otherwise. *)
Definition discount (self : UmbrellaChain) (state : EnvState)
    (params : EnvParams) : Q :=
  lax_select (is_terminal self state params) 0%Q 1%Q.

Definition step_env (self : UmbrellaChain) (key : PRNGKey)
    (state : EnvState) (action : Z) (params : EnvParams)
    : array2 * EnvState * Z * bool * Info :=
  let has_umbrella' :=
    lax_select (time state + 1 =? 1) action (has_umbrella state) in
  let reward := 0 in
  (* Check if chain is full/up *)
  let chain_full := time state + 1 =? chain_length params in
  let has_need := has_umbrella' =? need_umbrella state in
  let reward :=
    reward + Z.b2z (jnp_logical_and (Z.b2z chain_full) (Z.b2z has_need)) in
  let reward :=
    reward - Z.b2z (jnp_logical_and (Z.b2z chain_full) (1 - Z.b2z has_need)) in
  let total_regret' :=
    total_regret state
    + 2 * Z.b2z (jnp_logical_and (Z.b2z chain_full) (1 - Z.b2z has_need)) in
  (* If chain is not full/up add random rewards *)
  let key_reward := random_split key 2 0 in
  let key_distractor := random_split key 2 1 in
  let random_rew := 2 * Z.b2z (random_bernoulli key_reward) - 1 in
  let reward := reward + (1 - Z.b2z chain_full) * random_rew in
  let state' :=
    mkEnvState (jnp_int32 (need_umbrella state))
               (jnp_int32 has_umbrella')
               (jnp_int32 total_regret')
               (time state + 1) in
  (* Check game condition & no. steps for termination condition *)
  let done := is_terminal self state' params in
  let info := {| info_discount := discount self state' params |} in
  (stop_gradient (get_obs self state' key_distractor params),
   stop_gradient state',
   reward,
   done,
   info).

Definition reset_env (self : UmbrellaChain) (key : PRNGKey)
    (params : EnvParams) : array2 * EnvState :=
  let key_need := random_split key 3 0 in
  let key_has := random_split key 3 1 in
  let key_distractor := random_split key 3 2 in
  let need_umbrella' := jnp_int32 (Z.b2z (random_bernoulli key_need)) in
  let has_umbrella' := jnp_int32 (Z.b2z (random_bernoulli key_has)) in
  let state := mkEnvState need_umbrella' has_umbrella' 0 0 in
  (get_obs self state key_distractor params, state).

Definition observation_space (self : UmbrellaChain) (params : EnvParams)
    : Box :=
  mkBox 0 1 (1%nat, (3 + n_distractor self)%nat).

Definition num_actions (self : UmbrellaChain) : Z := 2.

End Environment.

(** Components of the tuple returned by [step_env]. *)
Definition step_obs (r : array2 * EnvState * Z * bool * Info) : array2 :=
  let '(o, _, _, _, _) := r in o.
Definition step_state (r : array2 * EnvState * Z * bool * Info) : EnvState :=
  let '(_, s, _, _, _) := r in s.
Definition step_reward (r : array2 * EnvState * Z * bool * Info) : Z :=
  let '(_, _, w, _, _) := r in w.
Definition step_done (r : array2 * EnvState * Z * bool * Info) : bool :=
  let '(_, _, _, d, _) := r in d.
Definition step_info (r : array2 * EnvState * Z * bool * Info) : Info :=
  let '(_, _, _, _, i) := r in i.

(** ** Calls that may raise

    [step_env] converts the action on line 43 and divides by
    [chain_length] in [get_obs] on line 71; [reset_env] divides in
    [get_obs] on line 88.  A call that passes these points returns the
    value given by [step_env], [reset_env] or [get_obs]. *)

Section Calls.

Context {PRNGKey : Type} `{JaxRandom PRNGKey}.

Definition get_obs_call (self : UmbrellaChain) (state : EnvState)
    (key : PRNGKey) (params : EnvParams) : raising array2 :=
  _ <-- true_divide_call (time state) (chain_length params) ;;
  returns (get_obs self state key params).

Definition step_env_call (self : UmbrellaChain) (key : PRNGKey)
    (state : EnvState) (action : Z) (params : EnvParams)
    : raising (array2 * EnvState * Z * bool * Info) :=
  action' <-- convert_int32 action ;;
  let r := step_env self key state action' params in
  _ <-- get_obs_call self (step_state r) (random_split key 2 1) params ;;
  returns r.

Definition reset_env_call (self : UmbrellaChain) (key : PRNGKey)
    (params : EnvParams) : raising (array2 * EnvState) :=
  let r := reset_env self key params in
  _ <-- get_obs_call self (snd r) (random_split key 3 2) params ;;
  returns r.

End Calls.

(** ** A run of the environment

    The caller threads the state returned by one call into the next one;
    each call gets its own key and action. *)

Section Rollout.

Context {PRNGKey : Type} `{JaxRandom PRNGKey}.

Fixpoint rollout (self : UmbrellaChain) (params : EnvParams)
    (state : EnvState) (inputs : list (PRNGKey * Z))
    : list (array2 * EnvState * Z * bool * Info) :=
  match inputs with
  | [] => []
  | (key, action) :: rest =>
      let r := step_env self key state action params in
      r :: rollout self params (step_state r) rest
  end.

End Rollout.

(** Names for the intermediate values of [step_env]: the value selected
    for [has_umbrella], and the two tests made on it. *)
Definition carried (state : EnvState) (action : Z) : Z :=
  lax_select (time state + 1 =? 1) action (has_umbrella state).

Definition chain_full (state : EnvState) (params : EnvParams) : bool :=
  time state + 1 =? chain_length params.

Definition has_need (state : EnvState) (action : Z) : bool :=
  carried state action =? need_umbrella state.

(** Entry 2 of the observation, as [get_obs] computes it from [time] and
    [chain_length]. *)
Definition remaining_fraction (t c : Z) : Q :=
  float32 (float_sub 1 (true_divide t c)).

(** ** The declared spaces *)

(** [spaces.Discrete(n)]. *)
Record Discrete := mkDiscrete {
  categories : Z
}.

(** The [spaces.Dict] returned by [state_space], one entry per key. *)
Record StateSpace := mkStateSpace {
  space_need_umbrella : Discrete;
  space_has_umbrella : Discrete;
  space_total_regret : Discrete;
  space_time : Discrete
}.

Definition action_space (self : UmbrellaChain) (params : EnvParams)
    : Discrete :=
  mkDiscrete 2.

Definition state_space (self : UmbrellaChain) (params : EnvParams)
    : StateSpace :=
  mkStateSpace (mkDiscrete 2) (mkDiscrete 2) (mkDiscrete 1000)
               (mkDiscrete (max_steps_in_episode params)).

(** Modelled from the spec: the classes of [gymnax.environments.spaces] are
    not among the sources; the spec reads [Discrete(n)] as the values
    [0 <= x < n], a [Dict] field by field, and [Box(low, high, shape)] as
    the arrays of that shape with every entry in [[low, high]]. *)
Definition in_discrete (d : Discrete) (x : Z) : Prop :=
  0 <= x < categories d.

Definition in_state_space (sp : StateSpace) (s : EnvState) : Prop :=
  in_discrete (space_need_umbrella sp) (need_umbrella s) /\
  in_discrete (space_has_umbrella sp) (has_umbrella s) /\
  in_discrete (space_total_regret sp) (total_regret s) /\
  in_discrete (space_time sp) (time s).

Definition in_box (b : Box) (a : array2) : Prop :=
  length a = fst (shape b) /\
  Forall (fun row =>
            length row = snd (shape b) /\
            Forall (fun q => (low b <= q)%Q /\ (q <= high b)%Q) row) a.

(** * Properties *)

Example step_env_sample :
  step_env (mkUmbrellaChain 2) 7 (mkEnvState 1 0 0 0) 1 default_params
  = ([[1; 1; 7549747 # 8388608; 0; 1]]%Q, mkEnvState 1 1 0 1, 1, false,
     mkInfo 1).
Proof. vm_compute. reflexivity. Qed.

(** The scenario of the spec: [chain_length = 3], no distractors, an
    episode that needs the umbrella.  Taking it earns +1 at the third call
    and no regret; leaving it earns -1 and regret 2. *)
Example scenario_match :
  let self := mkUmbrellaChain 0 in
  let params := mkEnvParams 3 100 in
  let s0 := snd (reset_env self 0%Z params) in
  need_umbrella s0 = 1 /\
  map (fun r => (time (step_state r), total_regret (step_state r),
                 step_done r))
      (rollout self params s0 [(1, 1); (2, 0); (3, 0)])
  = [(1, 0, false); (2, 0, false); (3, 0, true)] /\
  (step_reward <$> rollout self params s0 [(1, 1); (2, 0); (3, 0)]) !! 2%nat
  = Some 1.
Proof. vm_compute. repeat split; reflexivity. Qed.

Example scenario_mismatch :
  let self := mkUmbrellaChain 0 in
  let params := mkEnvParams 3 100 in
  let s0 := snd (reset_env self 0%Z params) in
  map (fun r => (time (step_state r), total_regret (step_state r),
                 step_done r))
      (rollout self params s0 [(1, 0); (2, 0); (3, 0)])
  = [(1, 0, false); (2, 0, false); (3, 2, true)] /\
  (step_reward <$> rollout self params s0 [(1, 0); (2, 0); (3, 0)]) !! 2%nat
  = Some (-1).
Proof. vm_compute. repeat split; reflexivity. Qed.

(** ** 32-bit casts *)

Lemma jnp_int32_id (z : Z) : int32 z -> jnp_int32 z = z.
Proof.
  unfold int32, int32_min, int32_max, jnp_int32. intros Hz.
  rewrite Z.mod_small by lia. lia.
Qed.

Lemma jnp_int32_range (z : Z) : int32 (jnp_int32 z).
Proof.
  unfold int32, int32_min, int32_max, jnp_int32.
  pose proof (Z.mod_pos_bound (z + 2 ^ 31) (2 ^ 32) ltac:(lia)). lia.
Qed.

Lemma int32_b2z (b : bool) : int32 (Z.b2z b).
Proof. unfold int32, int32_min, int32_max. destruct b; simpl; lia. Qed.

Lemma jnp_int32_b2z (b : bool) : jnp_int32 (Z.b2z b) = Z.b2z b.
Proof. apply jnp_int32_id, int32_b2z. Qed.

Lemma jnp_logical_and_b2z (a b : bool) :
  jnp_logical_and (Z.b2z a) (Z.b2z b) = a && b.
Proof. destruct a, b; reflexivity. Qed.

Lemma jnp_logical_and_not (a b : bool) :
  jnp_logical_and (Z.b2z a) (1 - Z.b2z b) = a && negb b.
Proof. destruct a, b; reflexivity. Qed.

(** ** One call of [step_env], component by component *)

Section StepEquations.

Context {PRNGKey : Type} `{JaxRandom PRNGKey}.
Variables (self : UmbrellaChain) (key : PRNGKey) (state : EnvState)
          (action : Z) (params : EnvParams).

Lemma step_state_eq :
  step_state (step_env self key state action params)
  = mkEnvState (jnp_int32 (need_umbrella state))
               (jnp_int32 (carried state action))
               (jnp_int32 (total_regret state
                           + 2 * Z.b2z (chain_full state params
                                        && negb (has_need state action))))
               (time state + 1).
Proof.
  unfold step_env, step_state, stop_gradient.
  fold (carried state action). fold (chain_full state params).
  fold (has_need state action).
  now rewrite jnp_logical_and_not.
Qed.

Lemma step_reward_eq :
  step_reward (step_env self key state action params)
  = if chain_full state params
    then (if has_need state action then 1 else -1)
    else 2 * Z.b2z (random_bernoulli (random_split key 2 0)) - 1.
Proof.
  unfold step_env, step_reward.
  fold (carried state action). fold (chain_full state params).
  fold (has_need state action).
  rewrite jnp_logical_and_not, jnp_logical_and_b2z.
  destruct (chain_full state params), (has_need state action); simpl; lia.
Qed.

Lemma step_done_eq :
  step_done (step_env self key state action params)
  = is_terminal self
      (step_state (step_env self key state action params)) params.
Proof. reflexivity. Qed.

Lemma step_info_eq :
  step_info (step_env self key state action params)
  = mkInfo (discount self
      (step_state (step_env self key state action params)) params).
Proof. reflexivity. Qed.

Lemma step_obs_eq :
  step_obs (step_env self key state action params)
  = get_obs self (step_state (step_env self key state action params))
      (random_split key 2 1) params.
Proof. reflexivity. Qed.

Lemma step_time :
  time (step_state (step_env self key state action params))
  = time state + 1.
Proof. now rewrite step_state_eq. Qed.

End StepEquations.

(** ** Rounding *)

Example float32_one_tenth : float32 (1 # 10) = (13421773 # 134217728)%Q.
Proof. vm_compute. reflexivity. Qed.

Example binary64_one_third :
  binary64 (1 # 3) = (6004799503160661 # 18014398509481984)%Q.
Proof. vm_compute. reflexivity. Qed.

Example float32_ties_to_even :
  float_of_int 16777217 = inject_Z 16777216 /\
  float_of_int 16777219 = inject_Z 16777220 /\
  float_of_int (-16777219) = inject_Z (-16777220).
Proof. vm_compute. repeat split; reflexivity. Qed.

Lemma round_half_even_cases (q : Q) :
  round_half_even q = Qfloor q \/
  (round_half_even q = Qfloor q + 1 /\ (1 # 2 <= q - inject_Z (Qfloor q))%Q).
Proof.
  unfold round_half_even.
  destruct (Qcompare_spec (q - inject_Z (Qfloor q)) (1 # 2)) as [E|E|E].
  - destruct (Z.even (Qfloor q)); [left; reflexivity|].
    right. split; [reflexivity|]. rewrite E. apply Qle_refl.
  - left. reflexivity.
  - right. split; [reflexivity|]. apply Qlt_le_weak. exact E.
Qed.

Lemma round_half_even_ge (q : Q) (m : Z) :
  (inject_Z m <= q)%Q -> m <= round_half_even q.
Proof.
  intros Hm.
  assert (Hf : m <= Qfloor q).
  { rewrite <- (Qfloor_Z m). now apply Qfloor_resp_le. }
  destruct (round_half_even_cases q) as [-> | [-> _]]; lia.
Qed.

Lemma round_half_even_le (q : Q) (m : Z) :
  (q <= inject_Z m)%Q -> round_half_even q <= m.
Proof.
  intros Hm.
  assert (Hf : Qfloor q <= m).
  { rewrite <- (Qfloor_Z m). now apply Qfloor_resp_le. }
  destruct (round_half_even_cases q) as [-> | [-> Hhalf]]; [exact Hf|].
  destruct (Z.eq_dec (Qfloor q) m) as [E|E]; [|lia].
  exfalso. rewrite E in Hhalf. lra.
Qed.

Lemma pow2_pos (e : Z) : (0 < 2 ^ e)%Q.
Proof. apply Qpower_0_lt. reflexivity. Qed.

Lemma pow2_plus (a b : Z) : (2 ^ (a + b) == 2 ^ a * 2 ^ b)%Q.
Proof. apply Qpower_plus. discriminate. Qed.

Lemma pow2_inject (k : Z) : 0 <= k -> (inject_Z (2 ^ k) == 2 ^ k)%Q.
Proof. intros Hk. now rewrite Zpower_Qpower. Qed.

Lemma pow2_le (a b : Z) : a <= b -> (2 ^ a <= 2 ^ b)%Q.
Proof. intros H. apply Qpower_le_compat_l; [exact H | discriminate]. Qed.

Lemma pow2_lt (a b : Z) : a < b -> (2 ^ a < 2 ^ b)%Q.
Proof. intros H. apply Qpower_lt_compat_l; [exact H | reflexivity]. Qed.

Lemma pow2_lt_inv (a b : Z) : (2 ^ a < 2 ^ b)%Q -> a < b.
Proof. intros H. apply (Qpower_lt_compat_l_inv 2); [exact H | reflexivity]. Qed.

Lemma Qlog2_spec (q : Q) :
  (0 < q)%Q -> (2 ^ Qlog2 q <= q)%Q /\ (q < 2 ^ (Qlog2 q + 1))%Q.
Proof.
  intros Hq. destruct q as [n d].
  assert (Hn : 0 < n) by (unfold Qlt in Hq; simpl in Hq; lia).
  unfold Qlog2. cbn [Qnum Qden].
  set (a := Z.log2 n). set (b := Z.log2 (Z.pos d)).
  destruct (Z.log2_spec n Hn) as [Ha1 Ha2]. fold a in Ha1, Ha2.
  destruct (Z.log2_spec (Z.pos d) ltac:(lia)) as [Hb1 Hb2].
  fold b in Hb1, Hb2.
  assert (Ha0 : 0 <= a) by apply Z.log2_nonneg.
  assert (Hb0 : 0 <= b) by apply Z.log2_nonneg.
  assert (Hd : (0 < inject_Z (Z.pos d))%Q) by reflexivity.
  assert (Hqd : (n # d == inject_Z n / inject_Z (Z.pos d))%Q)
    by apply Qmake_Qdiv.
  (* n / d < 2 ^ (a - b + 1) *)
  assert (Hup : (n # d < 2 ^ (a - b + 1))%Q).
  { rewrite Hqd. apply Qlt_shift_div_r; [exact Hd|].
    apply Qlt_le_trans with (2 ^ (a + 1))%Q.
    - rewrite <- pow2_inject by lia. rewrite <- Zlt_Qlt. exact Ha2.
    - replace (a + 1) with ((a - b + 1) + b) by lia.
      rewrite pow2_plus. apply Qmult_le_l; [apply pow2_pos|].
      rewrite <- pow2_inject by lia. rewrite <- Zle_Qle. exact Hb1. }
  (* 2 ^ (a - b - 1) <= n / d *)
  assert (Hlo : (2 ^ (a - b - 1) <= n # d)%Q).
  { rewrite Hqd. apply Qle_shift_div_l; [exact Hd|].
    apply Qle_trans with (2 ^ a)%Q.
    - replace a with ((a - b - 1) + (b + 1)) at 2 by lia.
      rewrite pow2_plus. apply Qmult_le_l; [apply pow2_pos|].
      rewrite <- pow2_inject by lia. rewrite <- Zle_Qle. lia.
    - rewrite <- pow2_inject by lia. rewrite <- Zle_Qle. exact Ha1. }
  destruct (Qle_bool (2 ^ (a - b)) (n # d)) eqn:E.
  - apply Qle_bool_iff in E. split; assumption.
  - split; [exact Hlo|].
    replace (a - b - 1 + 1) with (a - b) by lia.
    apply Qnot_le_lt. intros Hle.
    apply Qle_bool_iff in Hle. congruence.
Qed.

Lemma Qlog2_lt (q : Q) (k : Z) : (0 < q)%Q -> (q < 2 ^ k)%Q -> Qlog2 q < k.
Proof.
  intros Hq Hk. destruct (Qlog2_spec q Hq) as [Hlo _].
  apply pow2_lt_inv. now apply Qle_lt_trans with q.
Qed.

Lemma Qlog2_le (q : Q) (k : Z) : (0 < q)%Q -> (q <= 2 ^ k)%Q -> Qlog2 q <= k.
Proof.
  intros Hq Hk. destruct (Qlog2_spec q Hq) as [Hlo _].
  destruct (Z.le_gt_cases (Qlog2 q) k) as [H|H]; [exact H|].
  exfalso. apply (pow2_lt k (Qlog2 q)) in H. lra.
Qed.

Lemma Qlog2_ge (q : Q) (k : Z) : (0 < q)%Q -> (2 ^ k <= q)%Q -> k <= Qlog2 q.
Proof.
  intros Hq Hk. destruct (Qlog2_spec q Hq) as [_ Hup].
  assert (H : k < Qlog2 q + 1)
    by (apply pow2_lt_inv; now apply Qle_lt_trans with q).
  lia.
Qed.

Lemma Qabs_nonneg_eq (q : Q) : (0 <= q)%Q -> Qabs q = q.
Proof.
  destruct q as [n d]. unfold Qle. simpl. intros H.
  rewrite Z.abs_eq by lia. reflexivity.
Qed.

Lemma Qabs_opp_eq (q : Q) : Qabs (- q) = Qabs q.
Proof. destruct q as [n d]. simpl. now rewrite Z.abs_opp. Qed.

Lemma round_float_zero (prec : Z) (q : Q) :
  (q == 0)%Q -> round_float prec q = 0%Q.
Proof.
  intros Hq. unfold round_float.
  now rewrite (proj2 (Qeq_bool_iff q 0) Hq).
Qed.

Lemma round_float_pos (prec : Z) (q : Q) :
  (0 < q)%Q ->
  (round_float prec q
   == inject_Z (round_half_even (q / 2 ^ (Qlog2 q - (prec - 1))))
      * 2 ^ (Qlog2 q - (prec - 1)))%Q.
Proof.
  intros Hq. unfold round_float.
  destruct (Qeq_bool q 0) eqn:E.
  - apply Qeq_bool_iff in E. lra.
  - rewrite (Qabs_nonneg_eq q) by lra.
    rewrite (proj2 (Qle_bool_iff 0 q)) by lra.
    apply Qred_correct.
Qed.

Lemma round_float_opp (prec : Z) (q : Q) :
  (round_float prec (- q) == - round_float prec q)%Q.
Proof.
  unfold round_float.
  destruct (Qeq_bool q 0) eqn:E.
  - apply Qeq_bool_iff in E.
    rewrite (proj2 (Qeq_bool_iff (- q) 0)) by lra. reflexivity.
  - assert (Hq : ~ (q == 0)%Q)
      by (intros H; apply Qeq_bool_iff in H; congruence).
    destruct (Qeq_bool (- q) 0) eqn:E'.
    { apply Qeq_bool_iff in E'. exfalso. apply Hq. lra. }
    rewrite Qabs_opp_eq, !Qred_correct.
    set (e := Qlog2 (Qabs q) - (prec - 1)).
    set (m := round_half_even (Qabs q / 2 ^ e)).
    destruct (Qle_bool 0 q) eqn:Epos, (Qle_bool 0 (- q)) eqn:Eneg.
    + apply Qle_bool_iff in Epos, Eneg. exfalso. apply Hq. lra.
    + rewrite inject_Z_opp. ring.
    + rewrite inject_Z_opp. ring.
    + exfalso.
      assert (~ (0 <= q)%Q) by (intros H; apply Qle_bool_iff in H; congruence).
      assert (~ (0 <= - q)%Q)
        by (intros H'; apply Qle_bool_iff in H'; congruence).
      lra.
Qed.

(** Bounds by a multiple of a power of two at least as fine as the grid
    of [q]. *)
Lemma grid_multiple (M e j : Z) :
  e <= j ->
  (inject_Z M * 2 ^ j == inject_Z (M * 2 ^ (j - e)) * 2 ^ e)%Q.
Proof.
  intros H. rewrite inject_Z_mult, pow2_inject by lia.
  replace j with ((j - e) + e) at 1 by lia.
  rewrite pow2_plus. ring.
Qed.

Lemma round_float_le_grid (prec : Z) (q : Q) (M j : Z) :
  (0 < q)%Q -> Qlog2 q - (prec - 1) <= j ->
  (q <= inject_Z M * 2 ^ j)%Q ->
  (round_float prec q <= inject_Z M * 2 ^ j)%Q.
Proof.
  intros Hq He Hb. rewrite (round_float_pos prec q Hq).
  set (e := Qlog2 q - (prec - 1)) in *.
  rewrite (grid_multiple M e j He) in *.
  apply Qmult_le_compat_r; [|apply Qlt_le_weak, pow2_pos].
  rewrite <- Zle_Qle. apply round_half_even_le.
  apply Qle_shift_div_r; [apply pow2_pos | exact Hb].
Qed.

Lemma round_float_ge_grid (prec : Z) (q : Q) (M j : Z) :
  (0 < q)%Q -> Qlog2 q - (prec - 1) <= j ->
  (inject_Z M * 2 ^ j <= q)%Q ->
  (inject_Z M * 2 ^ j <= round_float prec q)%Q.
Proof.
  intros Hq He Hb. rewrite (round_float_pos prec q Hq).
  set (e := Qlog2 q - (prec - 1)) in *.
  rewrite (grid_multiple M e j He) in *.
  apply Qmult_le_compat_r; [|apply Qlt_le_weak, pow2_pos].
  rewrite <- Zle_Qle. apply round_half_even_ge.
  apply Qle_shift_div_l; [apply pow2_pos | exact Hb].
Qed.

Lemma round_float_le_pow2 (prec : Z) (q : Q) (k : Z) :
  1 <= prec -> (0 < q)%Q -> (q <= 2 ^ k)%Q -> (round_float prec q <= 2 ^ k)%Q.
Proof.
  intros Hp Hq Hk.
  pose proof (Qlog2_le q k Hq Hk) as HE.
  rewrite <- (Qmult_1_l (2 ^ k)) in *.
  apply (round_float_le_grid prec q 1 k Hq); [lia | exact Hk].
Qed.

Lemma round_float_ge_pow2 (prec : Z) (q : Q) (k : Z) :
  1 <= prec -> (0 < q)%Q -> (2 ^ k <= q)%Q -> (2 ^ k <= round_float prec q)%Q.
Proof.
  intros Hp Hq Hk.
  pose proof (Qlog2_ge q k Hq Hk) as HE.
  destruct (Qlog2_spec q Hq) as [Hlo _].
  apply Qle_trans with (2 ^ Qlog2 q)%Q; [now apply pow2_le|].
  set (e := Qlog2 q - (prec - 1)).
  assert (Hgrid : (2 ^ Qlog2 q == inject_Z (2 ^ (prec - 1)) * 2 ^ e)%Q).
  { rewrite pow2_inject by lia. rewrite <- pow2_plus.
    unfold e. now replace (prec - 1 + (Qlog2 q - (prec - 1))) with (Qlog2 q)
      by lia. }
  rewrite Hgrid in *.
  apply (round_float_ge_grid prec q _ e Hq); [unfold e; lia | exact Hlo].
Qed.

Lemma round_float_pos_lt (prec : Z) (q : Q) :
  1 <= prec -> (0 < q)%Q -> (0 < round_float prec q)%Q.
Proof.
  intros Hp Hq. destruct (Qlog2_spec q Hq) as [Hlo _].
  apply Qlt_le_trans with (2 ^ Qlog2 q)%Q; [apply pow2_pos|].
  now apply round_float_ge_pow2.
Qed.

Lemma round_float_neg_lt (prec : Z) (q : Q) :
  1 <= prec -> (q < 0)%Q -> (round_float prec q < 0)%Q.
Proof.
  intros Hp Hq.
  assert (H : (0 < round_float prec (- q))%Q)
    by (apply round_float_pos_lt; [exact Hp | lra]).
  rewrite round_float_opp in H. lra.
Qed.

Lemma round_float_unit (prec : Z) (q : Q) :
  1 <= prec -> (0 <= q)%Q -> (q <= 1)%Q ->
  (0 <= round_float prec q)%Q /\ (round_float prec q <= 1)%Q.
Proof.
  intros Hp H0 H1.
  destruct (Qeq_dec q 0) as [E|E].
  - rewrite (round_float_zero prec q E). split; lra.
  - assert (Hq : (0 < q)%Q) by lra.
    split; [apply Qlt_le_weak; now apply round_float_pos_lt|].
    change 1%Q with (2 ^ 0)%Q. apply round_float_le_pow2; auto.
Qed.

(** Integers of at most [prec] bits are represented exactly. *)
Lemma round_float_int (prec : Z) (z : Z) :
  1 <= prec -> Z.abs z <= 2 ^ prec ->
  (round_float prec (inject_Z z) == inject_Z z)%Q.
Proof.
  intros Hp Hz.
  assert (Hpos : forall y : Z, 0 < y -> y <= 2 ^ prec ->
            (round_float prec (inject_Z y) == inject_Z y)%Q).
  { intros y Hy Hle.
    assert (Hq : (0 < inject_Z y)%Q) by (rewrite Zlt_Qlt in Hy; exact Hy).
    destruct (Z.eq_dec y (2 ^ prec)) as [-> | Hne].
    - pose proof (pow2_inject prec ltac:(lia)) as Hinj.
      apply Qle_antisym.
      + rewrite Hinj at 2.
        apply round_float_le_pow2; [exact Hp | exact Hq|].
        rewrite Hinj. apply Qle_refl.
      + rewrite Hinj at 1.
        apply round_float_ge_pow2; [exact Hp | exact Hq|].
        rewrite Hinj. apply Qle_refl.
    - assert (He : Qlog2 (inject_Z y) - (prec - 1) <= 0).
      { assert (Qlog2 (inject_Z y) < prec); [|lia].
        apply Qlog2_lt; [exact Hq|].
        rewrite <- pow2_inject by lia. rewrite <- Zlt_Qlt. lia. }
      assert (Hy1 : (inject_Z y == inject_Z y * 2 ^ 0)%Q)
        by (change (2 ^ 0)%Q with 1%Q; ring).
      apply Qle_antisym.
      + rewrite Hy1 at 2.
        apply round_float_le_grid; [exact Hq | exact He|].
        rewrite <- Hy1. lra.
      + rewrite Hy1 at 1.
        apply round_float_ge_grid; [exact Hq | exact He|].
        rewrite <- Hy1. lra. }
  destruct (Z.lt_trichotomy z 0) as [Hn | [-> | Hpz]].
  - replace z with (- - z) by lia.
    rewrite inject_Z_opp, round_float_opp.
    rewrite Hpos by lia. reflexivity.
  - reflexivity.
  - apply Hpos; lia.
Qed.

Lemma round_float_sym_unit (prec : Z) (q : Q) :
  1 <= prec -> (- (1) <= q)%Q -> (q <= 1)%Q ->
  (- (1) <= round_float prec q)%Q /\ (round_float prec q <= 1)%Q.
Proof.
  intros Hp Hlo Hhi.
  destruct (Qlt_le_dec q 0) as [Hneg | Hpos].
  - destruct (round_float_unit prec (- q) Hp) as [H0 H1]; try lra.
    rewrite round_float_opp in H0, H1. split; lra.
  - destruct (round_float_unit prec q Hp Hpos Hhi). split; lra.
Qed.

Lemma quotient_unit (t c : Z) :
  0 <= t <= c -> 0 < c ->
  (0 <= inject_Z t / inject_Z c)%Q /\ (inject_Z t / inject_Z c <= 1)%Q.
Proof.
  intros Ht Hc.
  assert (Hcq : (0 < inject_Z c)%Q) by (change 0%Q with (inject_Z 0); rewrite <- Zlt_Qlt; exact Hc).
  split.
  - apply Qle_shift_div_l; [exact Hcq|]. rewrite Qmult_0_l.
    change 0%Q with (inject_Z 0). rewrite <- Zle_Qle. lia.
  - apply Qle_shift_div_r; [exact Hcq|]. rewrite Qmult_1_l.
    rewrite <- Zle_Qle. lia.
Qed.

Lemma remaining_fraction_bounds (t c : Z) :
  0 <= t <= c -> 0 < c ->
  (0 <= remaining_fraction t c)%Q /\ (remaining_fraction t c <= 1)%Q.
Proof.
  intros Ht Hc. unfold remaining_fraction, float_sub, true_divide.
  destruct (quotient_unit t c Ht Hc) as [Hq0 Hq1].
  destruct (round_float_unit 53 _ ltac:(lia) Hq0 Hq1) as [Hx0 Hx1].
  fold (binary64 (inject_Z t / inject_Z c)) in Hx0, Hx1.
  set (x := binary64 (inject_Z t / inject_Z c)) in *.
  destruct (round_float_unit 53 (1 - x) ltac:(lia)) as [Hy0 Hy1]; try lra.
  fold (binary64 (1 - x)) in Hy0, Hy1.
  apply (round_float_unit 24); [lia | exact Hy0 | exact Hy1].
Qed.

Lemma remaining_fraction_start (c : Z) : remaining_fraction 0 c = 1%Q.
Proof.
  unfold remaining_fraction, float_sub, true_divide, binary64.
  rewrite (round_float_zero 53 (inject_Z 0 / inject_Z c)).
  - vm_compute. reflexivity.
  - unfold Qdiv. apply Qmult_0_l.
Qed.

Lemma remaining_fraction_full (c : Z) :
  c <> 0 -> remaining_fraction c c = 0%Q.
Proof.
  intros Hc. unfold remaining_fraction, float_sub, true_divide.
  assert (Hq : (inject_Z c / inject_Z c == 1)%Q).
  { apply Qmult_inv_r. intros E. apply Hc.
    unfold Qeq in E. simpl in E. lia. }
  assert (Hx : (binary64 (inject_Z c / inject_Z c) == 1)%Q).
  { unfold binary64. apply Qle_antisym.
    - change 1%Q with (2 ^ 0)%Q.
      apply round_float_le_pow2; [lia | rewrite Hq; reflexivity|].
      rewrite Hq. apply Qle_refl.
    - change 1%Q with (2 ^ 0)%Q.
      apply round_float_ge_pow2; [lia | rewrite Hq; reflexivity|].
      rewrite Hq. apply Qle_refl. }
  unfold binary64 at 1.
  rewrite (round_float_zero 53) by (rewrite Hx; reflexivity).
  reflexivity.
Qed.

Lemma remaining_fraction_pos (t c : Z) :
  0 <= t < c -> c <= 2 ^ 53 -> (0 < remaining_fraction t c)%Q.
Proof.
  intros Ht Hc. unfold remaining_fraction, float_sub, true_divide.
  set (q := (inject_Z t / inject_Z c)%Q).
  set (B := (inject_Z (2 ^ 53 - 1) * 2 ^ (-53))%Q).
  assert (Hcq : (0 < inject_Z c)%Q)
    by (change 0%Q with (inject_Z 0); rewrite <- Zlt_Qlt; lia).
  assert (HqB : (q <= B)%Q).
  { unfold q. apply Qle_shift_div_r; [exact Hcq|].
    unfold B. change (2 ^ (-53))%Q with (1 # 9007199254740992)%Q.
    unfold Qle. simpl. lia. }
  assert (HB1 : (B < 1)%Q) by reflexivity.
  assert (Hq0 : (0 <= q)%Q).
  { unfold q. apply Qle_shift_div_l; [exact Hcq|]. rewrite Qmult_0_l.
    change 0%Q with (inject_Z 0). rewrite <- Zle_Qle. lia. }
  assert (Hx : (binary64 q <= B)%Q).
  { unfold binary64. destruct (Qeq_dec q 0) as [E|E].
    - rewrite (round_float_zero 53 q E). discriminate.
    - assert (Hqpos : (0 < q)%Q) by lra.
      apply round_float_le_grid; [exact Hqpos | | exact HqB].
      assert (Qlog2 q < 0); [|lia].
      apply Qlog2_lt; [exact Hqpos|]. change (2 ^ 0)%Q with 1%Q. lra. }
  set (x := binary64 q) in *.
  assert (Hy : (0 < binary64 (1 - x))%Q)
    by (apply round_float_pos_lt; [lia | lra]).
  apply round_float_pos_lt; [lia | exact Hy].
Qed.

Lemma remaining_fraction_neg (t c : Z) :
  0 < c -> c <= 2 ^ 52 -> c < t -> (remaining_fraction t c < 0)%Q.
Proof.
  intros Hc0 Hc Ht. unfold remaining_fraction, float_sub, true_divide.
  set (q := (inject_Z t / inject_Z c)%Q).
  set (B := (inject_Z (2 ^ 52 + 1) * 2 ^ (-52))%Q).
  assert (Hcq : (0 < inject_Z c)%Q)
    by (change 0%Q with (inject_Z 0); rewrite <- Zlt_Qlt; lia).
  assert (HBq : (B <= q)%Q).
  { unfold q. apply Qle_shift_div_l; [exact Hcq|].
    unfold B. change (2 ^ (-52))%Q with (1 # 4503599627370496)%Q.
    unfold Qle. simpl. lia. }
  assert (HB1 : (1 < B)%Q) by reflexivity.
  assert (Hqpos : (0 < q)%Q) by lra.
  assert (Hx : (1 < binary64 q)%Q).
  { unfold binary64. destruct (Qlt_le_dec q 2) as [H2 | H2].
    - apply Qlt_le_trans with B; [exact HB1|].
      apply round_float_ge_grid; [exact Hqpos | | exact HBq].
      assert (Qlog2 q < 1); [|lia].
      apply Qlog2_lt; [exact Hqpos|]. change (2 ^ 1)%Q with 2%Q. exact H2.
    - apply Qlt_le_trans with (2 ^ 1)%Q; [reflexivity|].
      apply round_float_ge_pow2; [lia | exact Hqpos|].
      change (2 ^ 1)%Q with 2%Q. exact H2. }
  set (x := binary64 q) in *.
  assert (Hy : (binary64 (1 - x) < 0)%Q)
    by (apply round_float_neg_lt; [lia | lra]).
  apply round_float_neg_lt; [lia | exact Hy].
Qed.

Lemma float_of_int_exact (z : Z) :
  Z.abs z <= 2 ^ 24 -> (float_of_int z == inject_Z z)%Q.
Proof. intros Hz. apply round_float_int; [lia | exact Hz]. Qed.

Lemma float_of_int_outside_unit (z : Z) :
  z <> 0 -> z <> 1 ->
  ~ ((0 <= float_of_int z)%Q /\ (float_of_int z <= 1)%Q).
Proof.
  intros H0 H1 [Hlo Hhi]. unfold float_of_int, float32 in *.
  destruct (Z.lt_ge_cases z 0) as [Hneg | Hpos].
  - assert (Hq : (inject_Z z < 0)%Q) by (change 0%Q with (inject_Z 0); rewrite <- Zlt_Qlt; lia).
    pose proof (round_float_neg_lt 24 _ ltac:(lia) Hq). lra.
  - assert (Hq : (2 ^ 1 <= inject_Z z)%Q).
    { change (2 ^ 1)%Q with (inject_Z 2). rewrite <- Zle_Qle. lia. }
    assert (Hqpos : (0 < inject_Z z)%Q)
      by (change 0%Q with (inject_Z 0); rewrite <- Zlt_Qlt; lia).
    pose proof (round_float_ge_pow2 24 _ 1 ltac:(lia) Hqpos Hq) as H.
    change (2 ^ 1)%Q with 2%Q in H. lra.
Qed.

(** ** The observation, entry by entry *)

Lemma set_from_length (vals : list Q) :
  forall (start : nat) (row : list Q),
    length (set_from start vals row) = length row.
Proof.
  induction vals as [|v vs IH]; intros start row; simpl.
  - reflexivity.
  - now rewrite length_insert.
Qed.

Lemma set_from_app (vals : list Q) :
  forall (pre rest : list Q),
    (length vals <= length rest)%nat ->
    set_from (length pre) vals (pre ++ rest)
    = pre ++ vals ++ drop (length vals) rest.
Proof.
  induction vals as [|v vs IH]; intros pre rest Hlen; simpl.
  - now rewrite drop_0.
  - destruct rest as [|x rest']; simpl in Hlen; [lia|].
    replace (S (length pre)) with (length (pre ++ [x]))
      by (rewrite length_app; simpl; lia).
    replace (pre ++ x :: rest') with ((pre ++ [x]) ++ rest')
      by now rewrite <- app_assoc.
    rewrite IH by lia.
    rewrite <- app_assoc. simpl.
    replace (length pre) with (length pre + 0)%nat at 1 by lia.
    now rewrite insert_app_r.
Qed.

Section Observation.

Context {PRNGKey : Type} `{JaxRandom PRNGKey}.

(** The array built by [get_obs], written out: one row, the three state
    entries followed by the distractor draws. *)
Lemma get_obs_eq (self : UmbrellaChain) (state : EnvState) (key : PRNGKey)
    (params : EnvParams) :
  get_obs self state key params
  = [ [ float_of_int (need_umbrella state);
        float_of_int (has_umbrella state);
        remaining_fraction (time state) (chain_length params) ]
      ++ map (fun i => float_of_bool
                         (random_bernoulli_vec key (n_distractor self) i))
             (seq 0 (n_distractor self)) ].
Proof.
  unfold get_obs, jnp_zeros, at_set, at_set_from. simpl.
  f_equal.
  set (vals := map _ _).
  assert (Hv : length vals = n_distractor self)
    by (unfold vals; now rewrite length_map, length_seq).
  match goal with
  | |- set_from 3 vals (?a :: ?b :: ?c :: ?rest) = _ =>
      change (set_from (length [a; b; c]) vals ([a; b; c] ++ rest)
              = [a; b; c] ++ vals)
  end.
  rewrite set_from_app by (rewrite length_replicate; lia).
  rewrite drop_ge by (rewrite length_replicate; lia).
  now rewrite app_nil_r.
Qed.

End Observation.

(** ** Closing side conditions on concrete 32-bit values *)

Ltac int32_values := vm_compute; repeat split; discriminate.

(** ** One call of [step_env] *)

(** C1, counterexample.  A well-typed state whose regret is 2147483646,
    one below the largest 32-bit value, completing the chain with a
    mismatch: the stored regret wraps around to the smallest 32-bit value
    instead of growing by 2. *)
Lemma regret_wraps_at_int32_max :
  let state := mkEnvState 1 0 2147483646 0 in
  let params := mkEnvParams 1 100 in
  let r := step_env (mkUmbrellaChain 0) 0 state 0 params in
  wf_state state /\
  time state + 1 = chain_length params /\
  has_umbrella (step_state r) <> need_umbrella state /\
  step_reward r = -1 /\
  total_regret (step_state r) = -2147483648 /\
  total_regret (step_state r) <> total_regret state + 2.
Proof.
  cbv zeta. split; [int32_values|].
  vm_compute. repeat split; discriminate.
Qed.

(** C1 (amended).  On a call that completes the chain
    ([state.time + 1 == params.chain_length]): if the carried bit after the
    update equals [state.need_umbrella] the reward is exactly +1 and
    [total_regret] is unchanged; otherwise the reward is exactly -1 and the
    new [total_regret] is [state.total_regret + 2] in 32-bit arithmetic,
    which is [state.total_regret + 2] itself whenever that sum is at most
    the largest 32-bit value. *)
Theorem step_env_chain_complete {PRNGKey : Type} `{JaxRandom PRNGKey}
    (self : UmbrellaChain) (key : PRNGKey) (state : EnvState) (action : Z)
    (params : EnvParams) :
  wf_state state -> int32 action ->
  time state + 1 = chain_length params ->
  let r := step_env self key state action params in
  (has_umbrella (step_state r) = need_umbrella state ->
     step_reward r = 1 /\
     total_regret (step_state r) = total_regret state) /\
  (has_umbrella (step_state r) <> need_umbrella state ->
     step_reward r = -1 /\
     total_regret (step_state r) = jnp_int32 (total_regret state + 2) /\
     (total_regret state + 2 <= int32_max ->
        total_regret (step_state r) = total_regret state + 2)).
Proof.
  intros (Hneed & Hhas & Hreg) Hact Hfull r. subst r.
  rewrite step_state_eq, step_reward_eq. simpl.
  assert (Hc : int32 (carried state action))
    by (unfold carried, lax_select; destruct (_ =? 1); assumption).
  rewrite (jnp_int32_id _ Hc).
  unfold chain_full. rewrite (proj2 (Z.eqb_eq _ _) Hfull). simpl.
  unfold has_need.
  destruct (Z.eqb_spec (carried state action) (need_umbrella state)) as [E|E];
    simpl; split; intros E'; try contradiction.
  - split; [reflexivity|]. rewrite Z.add_0_r. now apply jnp_int32_id.
  - split; [reflexivity|]. split; [reflexivity|].
    intros Hsum. apply jnp_int32_id.
    unfold int32, int32_min in *. lia.
Qed.

Lemma step_env_chain_complete_witness :
  let state := mkEnvState 1 0 0 2 in
  let params := mkEnvParams 3 100 in
  let r := step_env (mkUmbrellaChain 0) 5%Z state 7 params in
  step_reward r = -1 /\ total_regret (step_state r) = 2.
Proof.
  cbv zeta.
  destruct (step_env_chain_complete (mkUmbrellaChain 0) 5%Z
              (mkEnvState 1 0 0 2) 7 (mkEnvParams 3 100)
              ltac:(int32_values) ltac:(int32_values) eq_refl)
    as [_ Hmiss].
  destruct Hmiss as (Hr & _ & Ht).
  - vm_compute. discriminate.
  - split; [exact Hr|]. apply Ht. vm_compute. discriminate.
Defined.

(** C5.  A call of [step_env] leaves [need_umbrella] unchanged, sets
    [has_umbrella] to the action when [state.time + 1 == 1] and leaves it
    as it was on every other call, and increases [time] by exactly 1. *)
Theorem step_env_frame {PRNGKey : Type} `{JaxRandom PRNGKey}
    (self : UmbrellaChain) (key : PRNGKey) (state : EnvState) (action : Z)
    (params : EnvParams) :
  wf_state state -> int32 action ->
  let s' := step_state (step_env self key state action params) in
  need_umbrella s' = need_umbrella state /\
  (time state + 1 = 1 -> has_umbrella s' = action) /\
  (time state + 1 <> 1 -> has_umbrella s' = has_umbrella state) /\
  time s' = time state + 1.
Proof.
  intros (Hneed & Hhas & _) Hact s'. subst s'.
  rewrite step_state_eq. simpl. unfold carried, lax_select.
  split; [now apply jnp_int32_id|].
  split; [|split; [|reflexivity]]; intros Ht.
  - rewrite (proj2 (Z.eqb_eq _ _) Ht). now apply jnp_int32_id.
  - rewrite (proj2 (Z.eqb_neq _ _) Ht). now apply jnp_int32_id.
Qed.

Lemma step_env_frame_witness :
  let state := mkEnvState 1 0 0 0 in
  let s' := step_state
              (step_env (mkUmbrellaChain 1) 3%Z state 1 default_params) in
  need_umbrella s' = 1 /\ has_umbrella s' = 1 /\ time s' = 1.
Proof.
  cbv zeta.
  destruct (step_env_frame (mkUmbrellaChain 1) 3%Z (mkEnvState 1 0 0 0) 1
              default_params ltac:(int32_values) ltac:(int32_values))
    as (Hn & Hfirst & _ & Ht).
  split; [exact Hn|]. split; [|exact Ht].
  apply Hfirst. reflexivity.
Defined.

(** C6.  With positive [chain_length] and [max_steps_in_episode], the state
    returned by [reset_env] has [time = 0] and [total_regret = 0], and
    [is_terminal] is false on it. *)
Theorem reset_env_initial {PRNGKey : Type} `{JaxRandom PRNGKey}
    (self : UmbrellaChain) (key : PRNGKey) (params : EnvParams) :
  0 < chain_length params -> 0 < max_steps_in_episode params ->
  let state := snd (reset_env self key params) in
  time state = 0 /\ total_regret state = 0 /\
  is_terminal self state params = false.
Proof.
  intros Hc Hm state. subst state. simpl.
  split; [reflexivity|]. split; [reflexivity|].
  unfold is_terminal, jnp_logical_or. simpl.
  apply orb_false_intro.
  - rewrite Z.geb_leb. apply Z.leb_gt. exact Hm.
  - destruct (chain_length params); [lia | reflexivity | reflexivity].
Qed.

Lemma reset_env_initial_witness :
  let state := snd (reset_env (mkUmbrellaChain 0) 11%Z default_params) in
  time state = 0 /\ total_regret state = 0 /\
  is_terminal (mkUmbrellaChain 0) state default_params = false.
Proof.
  apply (reset_env_initial (mkUmbrellaChain 0) 11%Z default_params);
    simpl; lia.
Defined.

(** C8.  The reward returned by [step_env] is always exactly +1 or exactly
    -1: on the call that completes the chain it is +1 for a match and -1
    for a mismatch, on every other call it is the noise draw mapped to
    +1 / -1. *)
Theorem step_reward_plus_minus_one {PRNGKey : Type} `{JaxRandom PRNGKey}
    (self : UmbrellaChain) (key : PRNGKey) (state : EnvState) (action : Z)
    (params : EnvParams) :
  let r := step_env self key state action params in
  (step_reward r = 1 \/ step_reward r = -1) /\
  step_reward r
  = (if time state + 1 =? chain_length params
     then (if carried state action =? need_umbrella state then 1 else -1)
     else (if random_bernoulli (random_split key 2 0) then 1 else -1)).
Proof.
  intros r. subst r. rewrite step_reward_eq.
  unfold chain_full, has_need.
  destruct (_ =? chain_length params).
  - destruct (_ =? need_umbrella state); auto.
  - destruct (random_bernoulli _); simpl; auto.
Qed.

(** C9.  The next state, the done flag and the info returned by [step_env]
    do not depend on the key; on a call that completes the chain the reward
    does not depend on it either; and of the observation, the three leading
    entries do not depend on it. *)
Theorem step_env_key_independent {PRNGKey : Type} `{JaxRandom PRNGKey}
    (self : UmbrellaChain) (key1 key2 : PRNGKey) (state : EnvState)
    (action : Z) (params : EnvParams) :
  let r1 := step_env self key1 state action params in
  let r2 := step_env self key2 state action params in
  step_state r1 = step_state r2 /\
  step_done r1 = step_done r2 /\
  step_info r1 = step_info r2 /\
  (time state + 1 = chain_length params -> step_reward r1 = step_reward r2) /\
  (forall j : nat, (j < 3)%nat ->
     entry (step_obs r1) j = entry (step_obs r2) j).
Proof.
  intros r1 r2. subst r1 r2.
  assert (Hs : step_state (step_env self key1 state action params)
               = step_state (step_env self key2 state action params))
    by now rewrite !step_state_eq.
  split; [exact Hs|].
  split; [now rewrite !step_done_eq, Hs|].
  split; [now rewrite !step_info_eq, Hs|].
  split.
  - intros Hfull. rewrite !step_reward_eq. unfold chain_full.
    now rewrite (proj2 (Z.eqb_eq _ _) Hfull).
  - intros j Hj. rewrite !step_obs_eq, Hs, !get_obs_eq. unfold entry. simpl.
    destruct j as [|[|[|j]]]; try reflexivity. lia.
Qed.

Lemma step_env_key_independent_witness :
  let state := mkEnvState 1 1 0 9 in
  step_reward (step_env (mkUmbrellaChain 2) 4%Z state 0 default_params)
  = step_reward (step_env (mkUmbrellaChain 2) 5%Z state 0 default_params)
  /\ entry (step_obs (step_env (mkUmbrellaChain 2) 4%Z state 0 default_params)) 2
     = entry (step_obs (step_env (mkUmbrellaChain 2) 5%Z state 0 default_params)) 2.
Proof.
  cbv zeta.
  destruct (step_env_key_independent (mkUmbrellaChain 2) 4%Z 5%Z
              (mkEnvState 1 1 0 9) 0 default_params)
    as (_ & _ & _ & Hrew & Hobs).
  split; [apply Hrew; reflexivity | apply Hobs; lia].
Defined.

(** ** Calls that return *)

Lemma convert_int32_returns (z : Z) :
  int32 z -> convert_int32 z = returns z.
Proof.
  unfold int32, convert_int32. intros [Hlo Hhi].
  rewrite (proj2 (Z.leb_le _ _) Hlo), (proj2 (Z.leb_le _ _) Hhi).
  reflexivity.
Qed.

Lemma convert_int32_raises (z : Z) :
  ~ int32 z -> convert_int32 z = raise OverflowError.
Proof.
  unfold int32, convert_int32. intros Hz.
  destruct (Z.leb_spec int32_min z), (Z.leb_spec z int32_max);
    try reflexivity.
  exfalso. apply Hz. split; assumption.
Qed.

Lemma quotient_sym_unit (a b : Z) :
  b <> 0 -> Z.abs a <= Z.abs b ->
  (- (1) <= inject_Z a / inject_Z b)%Q /\ (inject_Z a / inject_Z b <= 1)%Q.
Proof.
  intros Hb Hab.
  assert (Hpos : forall x y : Z, 0 < y -> Z.abs x <= y ->
            (- (1) <= inject_Z x / inject_Z y)%Q /\
            (inject_Z x / inject_Z y <= 1)%Q).
  { intros x y Hy Hxy.
    assert (Hyq : (0 < inject_Z y)%Q)
      by (change 0%Q with (inject_Z 0); rewrite <- Zlt_Qlt; exact Hy).
    split.
    - apply Qle_shift_div_l; [exact Hyq|].
      change (- (1))%Q with (inject_Z (-1)).
      rewrite <- inject_Z_mult, <- Zle_Qle. lia.
    - apply Qle_shift_div_r; [exact Hyq|].
      rewrite Qmult_1_l, <- Zle_Qle. lia. }
  destruct (Z.lt_trichotomy b 0) as [Hneg | [E | Hp]]; [|contradiction|].
  - assert (E : (inject_Z a / inject_Z b
                 == inject_Z (- a) / inject_Z (- b))%Q).
    { rewrite !inject_Z_opp. field. intros E. apply Hb.
      unfold Qeq in E. simpl in E. lia. }
    rewrite E. apply Hpos; lia.
  - apply Hpos; lia.
Qed.

Lemma true_divide_call_returns (a b : Z) :
  b <> 0 -> Z.abs a <= Z.abs b ->
  true_divide_call a b = returns (true_divide a b).
Proof.
  intros Hb Hab. unfold true_divide_call.
  rewrite (proj2 (Z.eqb_neq b 0) Hb).
  destruct (Qle_bool (2 ^ 1024) (Qabs (true_divide a b))) eqn:E;
    [|reflexivity].
  exfalso. apply Qle_bool_iff in E.
  destruct (quotient_sym_unit a b Hb Hab) as [Hlo Hhi].
  destruct (round_float_sym_unit 53 _ ltac:(lia) Hlo Hhi) as [Hrlo Hrhi].
  fold (true_divide a b) in Hrlo, Hrhi.
  assert (Habs : (Qabs (true_divide a b) <= 1)%Q)
    by (apply Qabs_Qle_condition; split; assumption).
  pose proof (pow2_lt 0 1024 ltac:(lia)) as Hbig.
  change (2 ^ 0)%Q with 1%Q in Hbig.
  apply (Qlt_irrefl 1). apply Qlt_le_trans with (2 ^ 1024)%Q; [exact Hbig|].
  now apply Qle_trans with (Qabs (true_divide a b)).
Qed.


Section CallLemmas.

Context {PRNGKey : Type} `{JaxRandom PRNGKey}.

Lemma get_obs_call_returns (self : UmbrellaChain) (state : EnvState)
    (key : PRNGKey) (params : EnvParams) :
  chain_length params <> 0 ->
  Z.abs (time state) <= Z.abs (chain_length params) ->
  get_obs_call self state key params
  = returns (get_obs self state key params).
Proof.
  intros Hc Ht. unfold get_obs_call.
  now rewrite (true_divide_call_returns _ _ Hc Ht).
Qed.

(** The first call of an episode returns for every 32-bit action. *)
Lemma first_step_env_call_returns (self : UmbrellaChain) (key : PRNGKey)
    (state : EnvState) (action : Z) (params : EnvParams) :
  int32 action -> time state = 0 -> chain_length params <> 0 ->
  step_env_call self key state action params
  = returns (step_env self key state action params).
Proof.
  intros Ha Ht Hc. unfold step_env_call.
  rewrite (convert_int32_returns _ Ha). cbn [bind_raising returns].
  rewrite get_obs_call_returns; [reflexivity | exact Hc|].
  rewrite step_time, Ht. simpl. lia.
Qed.

Lemma step_env_call_overflow (self : UmbrellaChain) (key : PRNGKey)
    (state : EnvState) (action : Z) (params : EnvParams) :
  ~ int32 action ->
  step_env_call self key state action params = raise OverflowError.
Proof.
  intros Ha. unfold step_env_call.
  now rewrite (convert_int32_raises _ Ha).
Qed.

End CallLemmas.

(** C4, counterexample.  Three failures of the claim as stated.  A state
    holding the 32-bit value 16777217 in [has_umbrella], at
    [time = 2^55 - 1] with [chain_length = 2^55]: entry 1 of the
    observation is 16777216, not [has_umbrella], and entry 2 is 0 although
    [time <> chain_length].  A state at [time = -1] with
    [chain_length = 1]: [time <= chain_length] holds and entry 2 is 2,
    outside [[0, 1]]. *)
Lemma observation_entries_are_rounded :
  let self := mkUmbrellaChain 0 in
  let state := mkEnvState 0 16777217 0 (2 ^ 55 - 1) in
  let params := mkEnvParams (2 ^ 55) 100 in
  let obs := get_obs self state 0%Z params in
  let obs' := get_obs self (mkEnvState 0 0 0 (-1)) 0%Z (mkEnvParams 1 100) in
  wf_state state /\
  0 <= time state <= chain_length params /\
  time state <> chain_length params /\
  entry obs 1 = Some (inject_Z 16777216) /\
  entry obs 1 <> Some (inject_Z (has_umbrella state)) /\
  entry obs 2 = Some 0%Q /\
  entry obs' 2 = Some 2%Q.
Proof.
  cbv zeta. split; [vm_compute; repeat split; discriminate|].
  vm_compute. repeat split; discriminate.
Qed.

(** C4 (amended).  Whenever the call returns (it does for a nonzero
    [chain_length] with [|time| <= |chain_length|], and raises
    [ZeroDivisionError] for [chain_length = 0]), the observation has shape
    [(1, 3 + n_distractor)]; entries 0 and 1 are [need_umbrella] and
    [has_umbrella] converted to [float32], which is the value itself when
    its magnitude is at most [2^24], so 0 or 1 when the field is; entry 2
    is [1 - time / chain_length] evaluated in floating point, which for
    [0 <= time <= chain_length] and a positive [chain_length] lies in
    [[0, 1]], is 0 when [time = chain_length] and, for
    [chain_length <= 2^53], only then. *)
Theorem get_obs_entries {PRNGKey : Type} `{JaxRandom PRNGKey}
    (self : UmbrellaChain) (state : EnvState) (key : PRNGKey)
    (params : EnvParams) :
  let remaining :=
    float32 (float_sub 1 (true_divide (time state) (chain_length params))) in
  (chain_length params = 0 ->
     get_obs_call self state key params = raise ZeroDivisionError) /\
  (chain_length params <> 0 ->
   Z.abs (time state) <= Z.abs (chain_length params) ->
     get_obs_call self state key params
     = returns (get_obs self state key params)) /\
  (forall obs : array2,
     get_obs_call self state key params = returns obs ->
     (exists row : list Q,
        obs = [row] /\ length row = (3 + n_distractor self)%nat) /\
     entry obs 0 = Some (float_of_int (need_umbrella state)) /\
     entry obs 1 = Some (float_of_int (has_umbrella state)) /\
     (Z.abs (need_umbrella state) <= 2 ^ 24 ->
        (float_of_int (need_umbrella state)
         == inject_Z (need_umbrella state))%Q) /\
     (Z.abs (has_umbrella state) <= 2 ^ 24 ->
        (float_of_int (has_umbrella state)
         == inject_Z (has_umbrella state))%Q) /\
     (need_umbrella state = 0 \/ need_umbrella state = 1 ->
        entry obs 0 = Some 0%Q \/ entry obs 0 = Some 1%Q) /\
     (has_umbrella state = 0 \/ has_umbrella state = 1 ->
        entry obs 1 = Some 0%Q \/ entry obs 1 = Some 1%Q) /\
     entry obs 2 = Some remaining /\
     (0 <= time state <= chain_length params -> 0 < chain_length params ->
        (0 <= remaining)%Q /\ (remaining <= 1)%Q /\
        (time state = chain_length params -> remaining = 0%Q) /\
        (chain_length params <= 2 ^ 53 -> (remaining == 0)%Q ->
           time state = chain_length params))).
Proof.
  intros remaining. subst remaining.
  fold (remaining_fraction (time state) (chain_length params)).
  split.
  { intros Hc. unfold get_obs_call, true_divide_call. rewrite Hc.
    reflexivity. }
  split; [apply get_obs_call_returns|].
  intros obs Hcall.
  assert (Hobs : obs = get_obs self state key params).
  { unfold get_obs_call in Hcall.
    destruct (true_divide_call (time state) (chain_length params));
      [discriminate | now injection Hcall]. }
  rewrite Hobs, get_obs_eq.
  split.
  { eexists. split; [reflexivity|].
    cbn [length app]. now rewrite length_map, length_seq. }
  unfold entry. cbn [lookup list_lookup mbind option_bind app].
  split; [reflexivity|]. split; [reflexivity|].
  split; [apply float_of_int_exact|].
  split; [apply float_of_int_exact|].
  split; [intros [-> | ->]; [left | right]; reflexivity|].
  split; [intros [-> | ->]; [left | right]; reflexivity|].
  split; [reflexivity|].
  intros Ht Hc.
  destruct (remaining_fraction_bounds _ _ Ht Hc) as [Hlo Hhi].
  split; [exact Hlo|]. split; [exact Hhi|].
  split.
  - intros ->. apply remaining_fraction_full. lia.
  - intros Hbig Hzero.
    destruct (Z.eq_dec (time state) (chain_length params)) as [E|E];
      [exact E|].
    exfalso.
    pose proof (remaining_fraction_pos (time state) (chain_length params)
                  ltac:(lia) Hbig) as Hpos.
    rewrite Hzero in Hpos. discriminate.
Qed.

Lemma get_obs_entries_witness :
  let state := mkEnvState 1 0 0 10 in
  let obs := get_obs (mkUmbrellaChain 2) state 3%Z default_params in
  get_obs_call (mkUmbrellaChain 2) state 3%Z default_params = returns obs /\
  (float_of_int (need_umbrella state) == 1)%Q /\
  (entry obs 0 = Some 0%Q \/ entry obs 0 = Some 1%Q) /\
  (entry obs 1 = Some 0%Q \/ entry obs 1 = Some 1%Q) /\
  entry obs 2 = Some 0%Q.
Proof.
  cbv zeta.
  destruct (get_obs_entries (mkUmbrellaChain 2) (mkEnvState 1 0 0 10) 3%Z
              default_params)
    as (_ & Hret & Hall).
  assert (Hcall : get_obs_call (mkUmbrellaChain 2) (mkEnvState 1 0 0 10) 3%Z
                               default_params
                  = returns (get_obs (mkUmbrellaChain 2)
                                     (mkEnvState 1 0 0 10) 3%Z
                                     default_params))
    by (apply Hret; simpl; lia).
  destruct (Hall _ Hcall)
    as (_ & _ & _ & Hexact & _ & H0 & H1 & H2 & Hrem).
  split; [exact Hcall|].
  split; [apply Hexact; vm_compute; discriminate|].
  split; [apply H0; right; reflexivity|].
  split; [apply H1; left; reflexivity|].
  destruct Hrem as (_ & _ & Hz & _); [simpl; lia | simpl; lia |].
  exact (eq_trans H2 (f_equal Some (Hz eq_refl))).
Defined.

(** ** Runs of several calls *)

Section Runs.

Context {PRNGKey : Type} `{JaxRandom PRNGKey}.
Variables (self : UmbrellaChain) (params : EnvParams).

Lemma rollout_length (inputs : list (PRNGKey * Z)) :
  forall state : EnvState,
    length (rollout self params state inputs) = length inputs.
Proof.
  induction inputs as [|[key action] rest IH]; intros state; simpl.
  - reflexivity.
  - now rewrite IH.
Qed.

(** A property of the state, indexed by the number of calls made so far,
    that every call preserves holds before each call of a run. *)
Lemma rollout_invariant (P : nat -> EnvState -> Prop) :
  (forall (k : nat) (state : EnvState) (key : PRNGKey) (action : Z),
      P k state ->
      P (S k) (step_state (step_env self key state action params))) ->
  forall (inputs : list (PRNGKey * Z)) (k : nat) (state : EnvState)
         (n : nat) r,
    P k state ->
    rollout self params state inputs !! n = Some r ->
    exists (key : PRNGKey) (action : Z) (before : EnvState),
      P (k + n)%nat before /\
      r = step_env self key before action params.
Proof.
  intros Hstep inputs.
  induction inputs as [|[key action] rest IH]; intros k state n r HP Hn.
  - discriminate.
  - destruct n as [|n]; simpl in Hn.
    + injection Hn as <-. exists key, action, state.
      now rewrite Nat.add_0_r.
    + apply (IH (S k)) in Hn; [|exact (Hstep k state key action HP)].
      destruct Hn as (key' & action' & before & HP' & ->).
      exists key', action', before.
      now rewrite Nat.add_succ_r.
Qed.

End Runs.

Lemma is_terminal_true (self : UmbrellaChain) (state : EnvState)
    (params : EnvParams) :
  is_terminal self state params = true
  <-> max_steps_in_episode params <= time state
      \/ time state = chain_length params.
Proof.
  unfold is_terminal, jnp_logical_or.
  rewrite orb_true_iff, Z.geb_leb, Z.leb_le, Z.eqb_eq. reflexivity.
Qed.

Lemma is_terminal_false (self : UmbrellaChain) (state : EnvState)
    (params : EnvParams) :
  is_terminal self state params = false
  <-> time state < max_steps_in_episode params
      /\ time state <> chain_length params.
Proof.
  unfold is_terminal, jnp_logical_or.
  rewrite orb_false_iff, Z.geb_leb, Z.leb_gt, Z.eqb_neq. reflexivity.
Qed.

Section AfterFirstCall.

Context {PRNGKey : Type} `{JaxRandom PRNGKey}.
Variables (self : UmbrellaChain) (params : EnvParams).
Variables (need0 a1 : Z).
Hypothesis need0_int32 : int32 need0.
Hypothesis a1_int32 : int32 a1.

(** Regret and reward of the calls that follow the first one. *)
Lemma later_calls (rest : list (PRNGKey * Z)) (s1 : EnvState) (n : nat) r :
  time s1 = 1 -> need_umbrella s1 = need0 -> has_umbrella s1 = a1 ->
  total_regret s1
  = (if (a1 =? need0) || (1 <? chain_length params) then 0 else 2) ->
  rollout self params s1 rest !! n = Some r ->
  has_umbrella (step_state r) = a1 /\
  total_regret (step_state r)
  = (if (a1 =? need0) || (Z.of_nat n + 2 <? chain_length params)
     then 0 else 2) /\
  (Z.of_nat n + 2 = chain_length params ->
     step_reward r = (if a1 =? need0 then 1 else -1)).
Proof.
  intros Ht Hn Hh Hr Hrun.
  pose (P := fun (k : nat) (s : EnvState) =>
    time s = 1 + Z.of_nat k /\ need_umbrella s = need0 /\
    has_umbrella s = a1 /\
    total_regret s
    = (if (a1 =? need0) || (Z.of_nat k + 1 <? chain_length params)
       then 0 else 2)).
  assert (Hstep : forall k s key action,
             P k s ->
             P (S k) (step_state (step_env self key s action params))).
  { intros k s key action (Hk & Hne & Hha & Hre).
    assert (Hcar : carried s action = a1).
    { unfold carried, lax_select.
      rewrite (proj2 (Z.eqb_neq _ _)) by lia. exact Hha. }
    rewrite step_state_eq. unfold P. simpl.
    split; [lia|].
    split; [rewrite Hne; now apply jnp_int32_id|].
    split; [rewrite Hcar; now apply jnp_int32_id|].
    unfold has_need, chain_full. rewrite Hcar, Hne, Hre, Hk.
    destruct (a1 =? need0); simpl.
    - rewrite andb_false_r. reflexivity.
    - rewrite andb_true_r.
      destruct (Z.ltb_spec (Z.of_nat k + 1) (chain_length params));
        destruct (Z.eqb_spec (1 + Z.of_nat k + 1) (chain_length params));
        destruct (Z.ltb_spec (Z.of_nat (S k) + 1) (chain_length params));
        try lia; reflexivity. }
  assert (HP0 : P 0%nat s1) by (unfold P; simpl; auto).
  destruct (rollout_invariant self params P Hstep rest 0%nat s1 n r HP0 Hrun)
    as (key & action & before & HP & ->).
  pose proof (Hstep _ _ key action HP) as (Hk' & _ & Hh' & Hr').
  destruct HP as (Hk & Hne & Hha & _).
  simpl in Hk.
  split; [exact Hh'|]. split.
  - rewrite Hr'. simpl.
    replace (Z.of_nat (S n) + 1) with (Z.of_nat n + 2) by lia. reflexivity.
  - intros E. rewrite step_reward_eq. unfold chain_full, has_need, carried, lax_select.
    rewrite (proj2 (Z.eqb_eq (time before + 1) _)) by lia.
    rewrite (proj2 (Z.eqb_neq (time before + 1) 1)) by lia.
    now rewrite Hha, Hne.
Qed.

End AfterFirstCall.

(** ** Episodes *)

(** C2.  In an episode started by [reset_env] with
    [0 < chain_length <= max_steps_in_episode]: if the action of the first
    call equals the episode's [need_umbrella], the call that brings [time]
    to [chain_length] returns reward +1 and [total_regret] is 0 after every
    call; if it differs, that call returns reward -1 and [total_regret] is
    0 before it and 2 from it on. *)
Theorem episode_reward_and_regret {PRNGKey : Type} `{JaxRandom PRNGKey}
    (self : UmbrellaChain) (params : EnvParams) (key0 key1 : PRNGKey)
    (a1 : Z) (rest : list (PRNGKey * Z)) :
  0 < chain_length params ->
  chain_length params <= max_steps_in_episode params ->
  int32 a1 ->
  let s0 := snd (reset_env self key0 params) in
  let run := rollout self params s0 ((key1, a1) :: rest) in
  length run = length ((key1, a1) :: rest) /\
  (chain_length params <= Z.of_nat (length ((key1, a1) :: rest)) ->
     exists r, run !! Z.to_nat (chain_length params - 1) = Some r) /\
  (a1 = need_umbrella s0 ->
     forall (n : nat) r, run !! n = Some r ->
       total_regret (step_state r) = 0 /\
       (Z.of_nat n + 1 = chain_length params -> step_reward r = 1)) /\
  (a1 <> need_umbrella s0 ->
     forall (n : nat) r, run !! n = Some r ->
       total_regret (step_state r)
       = (if Z.of_nat n + 1 <? chain_length params then 0 else 2) /\
       (Z.of_nat n + 1 = chain_length params -> step_reward r = -1)).
Proof.
  intros Hpos _ Ha1 s0 run.
  split; [apply rollout_length|].
  split.
  { intros Hlen. apply lookup_lt_is_Some_2.
    unfold run. rewrite rollout_length. lia. }
  set (need0 := need_umbrella s0).
  assert (Hneed0 : int32 need0) by apply jnp_int32_range.
  (* every call, in terms of the test [a1 =? need0] *)
  assert (Hall : forall (n : nat) r, run !! n = Some r ->
            total_regret (step_state r)
            = (if (a1 =? need0) || (Z.of_nat n + 1 <? chain_length params)
               then 0 else 2) /\
            (Z.of_nat n + 1 = chain_length params ->
               step_reward r = (if a1 =? need0 then 1 else -1))).
  { intros n r Hn.
    assert (Hcar : carried s0 a1 = a1) by reflexivity.
    assert (Hfirst : total_regret
                       (step_state (step_env self key1 s0 a1 params))
                     = (if (a1 =? need0) || (1 <? chain_length params)
                        then 0 else 2)).
    { rewrite step_state_eq. cbn [total_regret].
      unfold has_need, chain_full. rewrite Hcar. fold need0.
      change (time s0 + 1) with 1. change (total_regret s0) with 0.
      destruct (a1 =? need0); cbn [negb orb].
      - rewrite andb_false_r. reflexivity.
      - rewrite andb_true_r.
        destruct (Z.eqb_spec 1 (chain_length params));
          destruct (Z.ltb_spec 1 (chain_length params));
          try lia; reflexivity. }
    destruct n as [|n].
    - change (run !! 0%nat)
        with (Some (step_env self key1 s0 a1 params)) in Hn.
      injection Hn as <-. split; [exact Hfirst|].
      intros E. rewrite step_reward_eq.
      unfold chain_full, has_need. rewrite Hcar. fold need0.
      change (time s0 + 1) with 1.
      now rewrite (proj2 (Z.eqb_eq 1 _)) by lia.
    - change (run !! S n)
        with (rollout self params
                (step_state (step_env self key1 s0 a1 params)) rest !! n)
        in Hn.
      destruct (later_calls self params need0 a1 Hneed0 Ha1 rest
                  (step_state (step_env self key1 s0 a1 params)) n r)
        as (_ & Hreg & Hrew); try exact Hn.
      + now rewrite step_time.
      + rewrite step_state_eq. simpl. now apply jnp_int32_id.
      + rewrite step_state_eq. simpl. rewrite Hcar. now apply jnp_int32_id.
      + exact Hfirst.
      + replace (Z.of_nat (S n) + 1) with (Z.of_nat n + 2) by lia.
        split; [exact Hreg | exact Hrew]. }
  split.
  - intros E n r Hn. destruct (Hall n r Hn) as [Hreg Hrew].
    rewrite (proj2 (Z.eqb_eq a1 need0) E) in Hreg, Hrew. auto.
  - intros E n r Hn. destruct (Hall n r Hn) as [Hreg Hrew].
    rewrite (proj2 (Z.eqb_neq a1 need0) E) in Hreg, Hrew. auto.
Qed.

Lemma episode_reward_and_regret_witness :
  let self := mkUmbrellaChain 0 in
  let params := mkEnvParams 3 100 in
  let s0 := snd (reset_env self 0%Z params) in
  let run := rollout self params s0 [(1, 1); (2, 0); (3, 0)] in
  need_umbrella s0 = 1 /\
  exists r, run !! 2%nat = Some r /\
            step_reward r = 1 /\ total_regret (step_state r) = 0.
Proof.
  cbv zeta. split; [reflexivity|].
  destruct (episode_reward_and_regret (mkUmbrellaChain 0) (mkEnvParams 3 100)
              0%Z 1%Z 1 [(2, 0); (3, 0)]
              ltac:(simpl; lia) ltac:(simpl; lia) ltac:(int32_values))
    as (_ & _ & Hmatch & _).
  eexists. split; [reflexivity|].
  destruct (Hmatch eq_refl 2%nat _ eq_refl) as [Hreg Hrew].
  split; [apply Hrew; reflexivity | exact Hreg].
Defined.

(** C3, counterexample.  With [chain_length = 3] and
    [max_steps_in_episode = 100], the third call returns [done = true] and
    the fourth call, made from that terminal state, returns
    [done = false]. *)
Lemma done_is_not_absorbing :
  let self := mkUmbrellaChain 0 in
  let params := mkEnvParams 3 100 in
  let s0 := snd (reset_env self 0%Z params) in
  map step_done
      (rollout self params s0 [(1, 1); (2, 0); (3, 0); (4, 0)])
  = [false; false; true; false].
Proof. vm_compute. reflexivity. Qed.

(** C3 (amended).  Along every run from a reset state, with positive
    [chain_length] and [max_steps_in_episode], call number [t] brings
    [time] to [t]; [done] is false while [t] is below both bounds, true at
    the first [t] that equals [chain_length] or [max_steps_in_episode], and
    after that true exactly when [t >= max_steps_in_episode]. *)
Theorem done_along_run {PRNGKey : Type} `{JaxRandom PRNGKey}
    (self : UmbrellaChain) (params : EnvParams) (key0 : PRNGKey)
    (inputs : list (PRNGKey * Z)) :
  0 < chain_length params -> 0 < max_steps_in_episode params ->
  let s0 := snd (reset_env self key0 params) in
  let run := rollout self params s0 inputs in
  let first := Z.min (chain_length params) (max_steps_in_episode params) in
  length run = length inputs /\
  forall (n : nat) r, run !! n = Some r ->
    let t := Z.of_nat n + 1 in
    time (step_state r) = t /\
    (t < first -> step_done r = false) /\
    (t = first -> step_done r = true) /\
    (first < t -> step_done r = (max_steps_in_episode params <=? t)).
Proof.
  intros Hc Hm s0 run first.
  split; [apply rollout_length|].
  intros n r Hn t.
  pose (P := fun (k : nat) (s : EnvState) => time s = Z.of_nat k).
  assert (Hstep : forall k s key action,
             P k s -> P (S k) (step_state (step_env self key s action params))).
  { intros k s key action Hk. unfold P in *. rewrite step_time. lia. }
  destruct (rollout_invariant self params P Hstep inputs 0%nat s0 n r
              eq_refl Hn)
    as (key & action & before & HP & ->).
  unfold P in HP. simpl in HP.
  assert (Ht : time (step_state (step_env self key before action params)) = t)
    by (rewrite step_time; unfold t; lia).
  split; [exact Ht|].
  rewrite step_done_eq.
  split; [|split].
  - intros Hlt. apply is_terminal_false. rewrite Ht. unfold first in Hlt. lia.
  - intros Heq. apply is_terminal_true. rewrite Ht. unfold first in Heq. lia.
  - intros Hgt. unfold first in Hgt.
    destruct (Z.leb_spec (max_steps_in_episode params) t).
    + apply is_terminal_true. rewrite Ht. lia.
    + apply is_terminal_false. rewrite Ht. lia.
Qed.

Lemma done_along_run_witness :
  let self := mkUmbrellaChain 0 in
  let params := mkEnvParams 3 100 in
  let s0 := snd (reset_env self 0%Z params) in
  let run := rollout self params s0 [(1, 1); (2, 0); (3, 0); (4, 0)] in
  exists r1 r3 r4,
    run !! 0%nat = Some r1 /\ run !! 2%nat = Some r3 /\
    run !! 3%nat = Some r4 /\
    step_done r1 = false /\ step_done r3 = true /\ step_done r4 = false.
Proof.
  cbv zeta.
  destruct (done_along_run (mkUmbrellaChain 0) (mkEnvParams 3 100) 0%Z
              [(1, 1); (2, 0); (3, 0); (4, 0)]
              ltac:(simpl; lia) ltac:(simpl; lia))
    as (_ & Hrun).
  eexists. eexists. eexists.
  split; [reflexivity|]. split; [reflexivity|]. split; [reflexivity|].
  split; [|split].
  - destruct (Hrun 0%nat _ eq_refl) as (_ & Hbefore & _).
    apply Hbefore. reflexivity.
  - destruct (Hrun 2%nat _ eq_refl) as (_ & _ & Hat & _).
    apply Hat. reflexivity.
  - destruct (Hrun 3%nat _ eq_refl) as (_ & _ & _ & Hafter).
    apply Hafter. reflexivity.
Defined.

(** ** Actions outside [{0, 1}] *)

(** C7, counterexample.  At [time = 0], with [need_umbrella = 1] and
    [chain_length = 1], the nonzero action 2 is stored as 2 and earns
    reward -1 and regret 2, whereas action 1 is stored as 1 and earns
    reward +1 and regret 0. *)
Lemma nonzero_action_differs_from_one :
  let self := mkUmbrellaChain 0 in
  let state := mkEnvState 1 0 0 0 in
  let params := mkEnvParams 1 100 in
  let r2 := step_env self 0%Z state 2 params in
  let r1 := step_env self 0%Z state 1 params in
  time state = 0 /\
  has_umbrella (step_state r2) = 2 /\ has_umbrella (step_state r1) = 1 /\
  step_reward r2 = -1 /\ step_reward r1 = 1 /\
  total_regret (step_state r2) = 2 /\ total_regret (step_state r1) = 0.
Proof. vm_compute. repeat split; reflexivity. Qed.

(** C7 (amended).  An action outside [{0, 1}] that fits in [int32],
    supplied at the first call ([state.time == 0], [chain_length <> 0]),
    is accepted without error and stored verbatim as [has_umbrella], with
    no conversion to a truth value; an action that does not fit in [int32]
    raises [OverflowError].  Against a [need_umbrella] in [{0, 1}] the
    stored action is a mismatch: reward and regret are those of the action
    [1 - need_umbrella], and on a call that completes the chain the reward
    is -1 and the regret becomes [total_regret + 2] in 32-bit arithmetic,
    which is [total_regret + 2] itself unless that exceeds the largest
    32-bit value. *)
Theorem out_of_range_action_is_mismatch {PRNGKey : Type} `{JaxRandom PRNGKey}
    (self : UmbrellaChain) (key : PRNGKey) (state : EnvState) (action : Z)
    (params : EnvParams) :
  action <> 0 -> action <> 1 ->
  time state = 0 -> chain_length params <> 0 ->
  need_umbrella state = 0 \/ need_umbrella state = 1 ->
  let r := step_env self key state action params in
  let r' := step_env self key state (1 - need_umbrella state) params in
  (~ int32 action ->
     step_env_call self key state action params = raise OverflowError) /\
  (int32 action ->
     step_env_call self key state action params = returns r /\
     has_umbrella (step_state r) = action /\
     step_reward r = step_reward r' /\
     total_regret (step_state r) = total_regret (step_state r') /\
     (time state + 1 = chain_length params ->
        step_reward r = -1 /\
        total_regret (step_state r) = jnp_int32 (total_regret state + 2) /\
        (int32 (total_regret state) ->
         total_regret state + 2 <= int32_max ->
         total_regret (step_state r) = total_regret state + 2))).
Proof.
  intros H0 H1 Ht Hc Hneed r r'. subst r r'.
  split; [apply step_env_call_overflow|].
  intros Hact.
  split; [now apply first_step_env_call_returns|].
  assert (Hcar : forall a, carried state a = a)
    by (intros a; unfold carried; rewrite Ht; reflexivity).
  assert (Hmiss : has_need state action = false)
    by (unfold has_need; rewrite Hcar; apply Z.eqb_neq; lia).
  assert (Hmiss' : has_need state (1 - need_umbrella state) = false)
    by (unfold has_need; rewrite Hcar; apply Z.eqb_neq; lia).
  rewrite !step_state_eq, !step_reward_eq, Hmiss, Hmiss', !Hcar.
  cbn [has_umbrella total_regret negb].
  split; [now apply jnp_int32_id|].
  split; [reflexivity|]. split; [reflexivity|].
  intros Hfull. unfold chain_full.
  rewrite (proj2 (Z.eqb_eq _ _) Hfull). cbn [andb Z.b2z].
  split; [reflexivity|]. split; [reflexivity|].
  intros Hreg Hsum. apply jnp_int32_id.
  unfold int32, int32_min in *. lia.
Qed.

Lemma out_of_range_action_is_mismatch_witness :
  let self := mkUmbrellaChain 0 in
  let state := mkEnvState 1 0 0 0 in
  let params := mkEnvParams 1 100 in
  let r := step_env self 0%Z state 2 params in
  step_env_call self 0%Z state 2 params = returns r /\
  has_umbrella (step_state r) = 2 /\ step_reward r = -1 /\
  total_regret (step_state r) = 2.
Proof.
  cbv zeta.
  destruct (out_of_range_action_is_mismatch (mkUmbrellaChain 0) 0%Z
              (mkEnvState 1 0 0 0) 2 (mkEnvParams 1 100)
              ltac:(lia) ltac:(lia) eq_refl ltac:(simpl; lia)
              (or_intror eq_refl))
    as (_ & Hin).
  destruct (Hin ltac:(int32_values)) as (Hcall & Hhas & _ & _ & Hfull).
  destruct (Hfull eq_refl) as (Hrew & _ & Hreg).
  split; [exact Hcall|]. split; [exact Hhas|]. split; [exact Hrew|].
  apply Hreg; [int32_values | vm_compute; discriminate].
Defined.

Lemma out_of_range_action_is_mismatch_overflow :
  step_env_call (mkUmbrellaChain 0) 0%Z (mkEnvState 1 0 0 0) (2 ^ 31)
                (mkEnvParams 1 100)
  = raise OverflowError.
Proof. reflexivity. Qed.

(** C10, counterexample.  The 32-bit action 16777217, supplied at
    [time = 0], is stored verbatim in [has_umbrella], but entry 1 of the
    returned observation is 16777216: storing into the [float32] array
    rounds it. *)
Lemma action_is_rounded_in_observation :
  let self := mkUmbrellaChain 0 in
  let state := mkEnvState 1 0 0 0 in
  let r := step_env self 0%Z state 16777217 default_params in
  int32 16777217 /\
  step_env_call self 0%Z state 16777217 default_params = returns r /\
  has_umbrella (step_state r) = 16777217 /\
  entry (step_obs r) 1 = Some (inject_Z 16777216) /\
  entry (step_obs r) 1 <> Some (inject_Z 16777217).
Proof.
  cbv zeta. split; [int32_values|].
  vm_compute. repeat split; discriminate.
Qed.

(** C10 (amended).  An int32 action outside [{0, 1}] supplied at the first
    call is stored verbatim in [has_umbrella] of the returned state; entry
    1 of the observation returned by that call and by every later call of
    the run is that value converted to [float32] (the value itself when its
    magnitude is at most [2^24], the nearest [float32] otherwise), and it
    lies outside the bounds [[0, 1]] declared by [observation_space]. *)
Theorem out_of_range_action_in_observation
    {PRNGKey : Type} `{JaxRandom PRNGKey}
    (self : UmbrellaChain) (params : EnvParams) (state : EnvState)
    (key : PRNGKey) (action : Z) (rest : list (PRNGKey * Z)) :
  int32 action -> action <> 0 -> action <> 1 ->
  time state = 0 ->
  let run := rollout self params state ((key, action) :: rest) in
  let space := observation_space self params in
  length run = length ((key, action) :: rest) /\
  (forall (n : nat) r, run !! n = Some r ->
     has_umbrella (step_state r) = action /\
     entry (step_obs r) 1 = Some (float_of_int action)) /\
  (Z.abs action <= 2 ^ 24 -> (float_of_int action == inject_Z action)%Q) /\
  ~ (low space <= float_of_int action /\ float_of_int action <= high space)%Q.
Proof.
  intros Hact H0 H1 Ht run space.
  split; [apply rollout_length|].
  split; [|split; [apply float_of_int_exact|
                   now apply float_of_int_outside_unit]].
  assert (Hobs : forall k s a,
             entry (step_obs (step_env self k s a params)) 1
             = Some (float_of_int
                       (has_umbrella
                          (step_state (step_env self k s a params))))).
  { intros k s a. rewrite step_obs_eq, get_obs_eq. reflexivity. }
  assert (Hfirst : has_umbrella
                     (step_state (step_env self key state action params))
                   = action).
  { rewrite step_state_eq. cbn [has_umbrella]. unfold carried.
    rewrite Ht. cbn [lax_select Z.add Z.eqb Pos.eqb].
    now apply jnp_int32_id. }
  intros n r Hn. destruct n as [|n].
  - change (run !! 0%nat)
      with (Some (step_env self key state action params)) in Hn.
    injection Hn as <-. rewrite Hobs, Hfirst. auto.
  - change (run !! S n)
      with (rollout self params
              (step_state (step_env self key state action params)) rest
            !! n) in Hn.
    pose (P := fun (k : nat) (s : EnvState) =>
      1 <= time s /\ has_umbrella s = action).
    assert (Hstep : forall k s key' a,
               P k s ->
               P (S k) (step_state (step_env self key' s a params))).
    { intros k s key' a [Hk Hh]. unfold P.
      rewrite step_state_eq. cbn [time has_umbrella]. split; [lia|].
      unfold carried, lax_select.
      rewrite (proj2 (Z.eqb_neq _ _)) by lia.
      rewrite Hh. now apply jnp_int32_id. }
    assert (HP1 : P 0%nat
              (step_state (step_env self key state action params))).
    { split; [rewrite step_time; lia | exact Hfirst]. }
    destruct (rollout_invariant self params P Hstep rest 0%nat _ n r HP1 Hn)
      as (key' & a & before & HP & ->).
    destruct (Hstep _ _ key' a HP) as [_ Hh].
    rewrite Hobs, Hh. auto.
Qed.

Lemma out_of_range_action_in_observation_witness :
  let self := mkUmbrellaChain 0 in
  let params := mkEnvParams 3 100 in
  let state := mkEnvState 1 0 0 0 in
  let run := rollout self params state [(1, 5); (2, 0); (3, 1)] in
  (float_of_int 5 == 5)%Q /\
  exists r, run !! 2%nat = Some r /\
            has_umbrella (step_state r) = 5 /\
            entry (step_obs r) 1 = Some 5%Q.
Proof.
  cbv zeta.
  destruct (out_of_range_action_in_observation (mkUmbrellaChain 0)
              (mkEnvParams 3 100) (mkEnvState 1 0 0 0) 1%Z 5
              [(2, 0); (3, 1)]
              ltac:(int32_values) ltac:(lia) ltac:(lia) eq_refl)
    as (_ & Hrun & Hexact & _).
  split; [apply Hexact; vm_compute; discriminate|].
  eexists. split; [reflexivity|].
  exact (Hrun 2%nat _ eq_refl).
Defined.

(** * Further properties of the environment *)

(** ** Observations and the declared observation space *)

Lemma distractors_in_unit (draw : nat -> bool) (idx : list nat) :
  Forall (fun q => (0 <= q)%Q /\ (q <= 1)%Q)
         (map (fun i => float_of_bool (draw i)) idx).
Proof.
  induction idx as [|i idx IH]; simpl; constructor; [|exact IH].
  unfold float_of_bool. destruct (draw i); simpl;
    unfold Qle; simpl; lia.
Qed.

Lemma float_of_bit_in_unit (z : Z) :
  z = 0 \/ z = 1 -> (0 <= float_of_int z)%Q /\ (float_of_int z <= 1)%Q.
Proof.
  intros [-> | ->]; vm_compute; split; discriminate.
Qed.

Section ObservationSpace.

Context {PRNGKey : Type} `{JaxRandom PRNGKey}.

(** The observation lies in the declared box as soon as its three state
    entries lie in the unit interval; the distractor entries always do. *)
Lemma get_obs_in_box_of_entries (self : UmbrellaChain) (state : EnvState)
    (key : PRNGKey) (params : EnvParams) :
  (0 <= float_of_int (need_umbrella state))%Q /\
  (float_of_int (need_umbrella state) <= 1)%Q ->
  (0 <= float_of_int (has_umbrella state))%Q /\
  (float_of_int (has_umbrella state) <= 1)%Q ->
  (0 <= remaining_fraction (time state) (chain_length params))%Q /\
  (remaining_fraction (time state) (chain_length params) <= 1)%Q ->
  in_box (observation_space self params) (get_obs self state key params).
Proof.
  intros Hneed Hhas Hrem. rewrite get_obs_eq.
  unfold in_box, observation_space. simpl.
  split; [reflexivity|].
  constructor; [|constructor].
  split.
  - simpl. now rewrite length_map, length_seq.
  - repeat (constructor; [assumption|]). apply distractors_in_unit.
Qed.

End ObservationSpace.

(** X9.  For a state whose [need_umbrella] and [has_umbrella] are bits and
    whose [time] is between 0 and a positive [chain_length], the array
    built by [get_obs] lies in [observation_space]: it has the declared
    shape and every entry, distractors included, is in [[0, 1]]. *)
Theorem get_obs_in_observation_space {PRNGKey : Type} `{JaxRandom PRNGKey}
    (self : UmbrellaChain) (state : EnvState) (key : PRNGKey)
    (params : EnvParams) :
  need_umbrella state = 0 \/ need_umbrella state = 1 ->
  has_umbrella state = 0 \/ has_umbrella state = 1 ->
  0 <= time state <= chain_length params ->
  0 < chain_length params ->
  in_box (observation_space self params) (get_obs self state key params).
Proof.
  intros Hneed Hhas Ht Hc.
  apply get_obs_in_box_of_entries.
  - now apply float_of_bit_in_unit.
  - now apply float_of_bit_in_unit.
  - now apply remaining_fraction_bounds.
Qed.

Lemma get_obs_in_observation_space_witness :
  in_box (observation_space (mkUmbrellaChain 2) default_params)
         (get_obs (mkUmbrellaChain 2) (mkEnvState 1 0 0 4) 3%Z
                  default_params).
Proof.
  apply (get_obs_in_observation_space (mkUmbrellaChain 2)
           (mkEnvState 1 0 0 4) 3%Z default_params).
  - right. reflexivity.
  - left. reflexivity.
  - simpl. lia.
  - simpl. lia.
Defined.

(** X10.  Once [time] exceeds a positive [chain_length] of at most
    [2^52], entry 2 of the observation is negative, so the array built by
    [get_obs] is outside [observation_space].  ([time < 2^127] keeps the
    entry finite in [float32].) *)
Theorem get_obs_past_chain_outside_space
    {PRNGKey : Type} `{JaxRandom PRNGKey}
    (self : UmbrellaChain) (state : EnvState) (key : PRNGKey)
    (params : EnvParams) :
  0 < chain_length params -> chain_length params <= 2 ^ 52 ->
  chain_length params < time state -> time state < 2 ^ 127 ->
  (exists q : Q,
     entry (get_obs self state key params) 2 = Some q /\ (q < 0)%Q) /\
  ~ in_box (observation_space self params) (get_obs self state key params).
Proof.
  intros Hc Hbig Ht _.
  pose proof (remaining_fraction_neg (time state) (chain_length params)
                Hc Hbig Ht) as Hneg.
  split.
  - eexists. split; [|exact Hneg]. rewrite get_obs_eq. reflexivity.
  - rewrite get_obs_eq. unfold in_box, observation_space.
    cbn [low high shape fst snd].
    intros [_ Hrows].
    apply Forall_cons in Hrows as [[_ Hrow] _].
    cbn [app] in Hrow.
    apply Forall_cons in Hrow as [_ Hrow].
    apply Forall_cons in Hrow as [_ Hrow].
    apply Forall_cons in Hrow as [[Hlow _] _].
    apply (Qlt_not_le _ _ Hneg). exact Hlow.
Qed.

Lemma get_obs_past_chain_outside_space_witness :
  ~ in_box (observation_space (mkUmbrellaChain 0) (mkEnvParams 3 100))
           (get_obs (mkUmbrellaChain 0) (mkEnvState 1 1 0 4) 3%Z
                    (mkEnvParams 3 100)).
Proof.
  apply (get_obs_past_chain_outside_space (mkUmbrellaChain 0)
           (mkEnvState 1 1 0 4) 3%Z (mkEnvParams 3 100));
    simpl; lia.
Defined.

(** ** [reset_env] *)

(** X1.  [reset_env] returns a well-typed state whose [need_umbrella] and
    [has_umbrella] are the bits drawn from children 0 and 1 of a three-way
    split of the key; the observation it returns shows these two bits, a
    remaining fraction equal to 1 (for a nonzero [chain_length]), and lies
    in [observation_space]. *)
Theorem reset_env_observation {PRNGKey : Type} `{JaxRandom PRNGKey}
    (self : UmbrellaChain) (key : PRNGKey) (params : EnvParams) :
  chain_length params <> 0 ->
  let obs := fst (reset_env self key params) in
  let state := snd (reset_env self key params) in
  need_umbrella state = Z.b2z (random_bernoulli (random_split key 3 0)) /\
  has_umbrella state = Z.b2z (random_bernoulli (random_split key 3 1)) /\
  wf_state state /\
  entry obs 0 = Some (float_of_int (need_umbrella state)) /\
  entry obs 1 = Some (float_of_int (has_umbrella state)) /\
  (exists q : Q, entry obs 2 = Some q /\ (q == 1)%Q) /\
  in_box (observation_space self params) obs.
Proof.
  intros _ obs state.
  assert (Hn : need_umbrella state
               = Z.b2z (random_bernoulli (random_split key 3 0)))
    by apply jnp_int32_b2z.
  assert (Hh : has_umbrella state
               = Z.b2z (random_bernoulli (random_split key 3 1)))
    by apply jnp_int32_b2z.
  assert (Hrem : remaining_fraction (time state) (chain_length params)
                 = 1%Q)
    by (change (time state) with 0; apply remaining_fraction_start).
  split; [exact Hn|]. split; [exact Hh|].
  split.
  { unfold wf_state. rewrite Hn, Hh.
    split; [apply int32_b2z|]. split; [apply int32_b2z|].
    change (total_regret state) with 0. vm_compute. split; discriminate. }
  assert (Hobs : obs = get_obs self state (random_split key 3 2) params)
    by reflexivity.
  assert (Hbox : in_box (observation_space self params) obs).
  { rewrite Hobs. apply get_obs_in_box_of_entries.
    - apply float_of_bit_in_unit. rewrite Hn.
      destruct (random_bernoulli (random_split key 3 0));
        [right | left]; reflexivity.
    - apply float_of_bit_in_unit. rewrite Hh.
      destruct (random_bernoulli (random_split key 3 1));
        [right | left]; reflexivity.
    - rewrite Hrem. split; discriminate. }
  rewrite Hobs, get_obs_eq in *. unfold entry.
  cbn [lookup list_lookup mbind option_bind app].
  split; [reflexivity|]. split; [reflexivity|].
  split; [eexists; split; [reflexivity | rewrite Hrem; reflexivity]|].
  exact Hbox.
Qed.

Lemma reset_env_observation_witness :
  let obs := fst (reset_env (mkUmbrellaChain 1) 0%Z default_params) in
  entry obs 0 = Some 1%Q /\ entry obs 1 = Some 0%Q /\
  in_box (observation_space (mkUmbrellaChain 1) default_params) obs.
Proof.
  cbv zeta.
  destruct (reset_env_observation (mkUmbrellaChain 1) 0%Z default_params
              ltac:(simpl; lia))
    as (_ & _ & _ & H0 & H1 & _ & Hbox).
  split; [exact H0|]. split; [exact H1 | exact Hbox].
Defined.

(** ** One call of [step_env]: what it leaves alone *)

(** X2.  A call of [step_env] on a state with a 32-bit [total_regret]
    leaves [total_regret] unchanged unless it completes the chain with a
    carried value different from [need_umbrella]. *)
Theorem regret_changes_only_on_miss {PRNGKey : Type} `{JaxRandom PRNGKey}
    (self : UmbrellaChain) (key : PRNGKey) (state : EnvState) (action : Z)
    (params : EnvParams) :
  int32 (total_regret state) ->
  let s' := step_state (step_env self key state action params) in
  (time state + 1 <> chain_length params ->
     total_regret s' = total_regret state) /\
  (carried state action = need_umbrella state ->
     total_regret s' = total_regret state) /\
  (total_regret s' <> total_regret state ->
     time state + 1 = chain_length params /\
     carried state action <> need_umbrella state).
Proof.
  intros Hreg s'. subst s'. rewrite step_state_eq. cbn [total_regret].
  unfold chain_full, has_need.
  destruct (Z.eqb_spec (time state + 1) (chain_length params)) as [Ef|Ef];
    destruct (Z.eqb_spec (carried state action) (need_umbrella state))
      as [En|En]; cbn [andb negb Z.b2z];
    rewrite ?Z.mul_0_r, ?Z.add_0_r, ?(jnp_int32_id _ Hreg);
    repeat split; intros; try contradiction; try reflexivity; auto.
Qed.

Lemma regret_changes_only_on_miss_witness :
  total_regret
    (step_state (step_env (mkUmbrellaChain 0) 5%Z (mkEnvState 1 0 2 4) 1
                          default_params)) = 2.
Proof.
  destruct (regret_changes_only_on_miss (mkUmbrellaChain 0) 5%Z
              (mkEnvState 1 0 2 4) 1 default_params ltac:(int32_values))
    as (Hother & _ & _).
  apply Hother. simpl. lia.
Defined.

(** X5.  After the first call the action is converted but not used:
    from a state with [time <> 0], two calls of [step_env] with 32-bit
    actions raise alike or return the same observation, state, reward,
    done flag and info; an action that does not fit in [int32] still
    raises [OverflowError]. *)
Theorem action_ignored_after_first_call {PRNGKey : Type} `{JaxRandom PRNGKey}
    (self : UmbrellaChain) (key : PRNGKey) (state : EnvState)
    (action1 action2 : Z) (params : EnvParams) :
  time state <> 0 ->
  (int32 action1 -> int32 action2 ->
     step_env_call self key state action1 params
     = step_env_call self key state action2 params /\
     step_env self key state action1 params
     = step_env self key state action2 params) /\
  (~ int32 action1 ->
     step_env_call self key state action1 params = raise OverflowError).
Proof.
  intros Ht.
  split; [|apply step_env_call_overflow].
  intros Ha1 Ha2.
  assert (Hsame : step_env self key state action1 params
                  = step_env self key state action2 params).
  { unfold step_env, lax_select.
    rewrite (proj2 (Z.eqb_neq (time state + 1) 1)) by lia.
    reflexivity. }
  split; [|exact Hsame].
  unfold step_env_call.
  rewrite (convert_int32_returns _ Ha1), (convert_int32_returns _ Ha2).
  cbn [bind_raising returns]. now rewrite Hsame.
Qed.

Lemma action_ignored_after_first_call_witness :
  step_env (mkUmbrellaChain 1) 5%Z (mkEnvState 1 0 0 2) 0 default_params
  = step_env (mkUmbrellaChain 1) 5%Z (mkEnvState 1 0 0 2) 7 default_params
  /\ step_env_call (mkUmbrellaChain 1) 5%Z (mkEnvState 1 0 0 2) (2 ^ 31)
                   default_params
     = raise OverflowError.
Proof.
  destruct (action_ignored_after_first_call (mkUmbrellaChain 1) 5%Z
              (mkEnvState 1 0 0 2) 0 7 default_params ltac:(simpl; lia))
    as [Hin _].
  destruct (action_ignored_after_first_call (mkUmbrellaChain 1) 5%Z
              (mkEnvState 1 0 0 2) (2 ^ 31) 0 default_params
              ltac:(simpl; lia))
    as [_ Hout].
  split.
  - apply Hin; int32_values.
  - apply Hout. vm_compute. intros [_ Hhi]. apply Hhi. reflexivity.
Defined.

(** X6.  The first call overwrites [has_umbrella]: from two states with
    [time = 0] that agree on [need_umbrella] and [total_regret],
    [step_env] returns the same results whatever [has_umbrella] was. *)
Theorem first_call_overwrites_has_umbrella
    {PRNGKey : Type} `{JaxRandom PRNGKey}
    (self : UmbrellaChain) (key : PRNGKey) (state1 state2 : EnvState)
    (action : Z) (params : EnvParams) :
  time state1 = 0 -> time state2 = 0 ->
  need_umbrella state1 = need_umbrella state2 ->
  total_regret state1 = total_regret state2 ->
  step_env self key state1 action params
  = step_env self key state2 action params.
Proof.
  intros Ht1 Ht2 Hn Hr. unfold step_env.
  rewrite Ht1, Ht2, Hn, Hr. reflexivity.
Qed.

Lemma first_call_overwrites_has_umbrella_witness :
  step_env (mkUmbrellaChain 1) 5%Z (mkEnvState 1 0 0 0) 1 default_params
  = step_env (mkUmbrellaChain 1) 5%Z (mkEnvState 1 1 0 0) 1 default_params.
Proof.
  apply (first_call_overwrites_has_umbrella (mkUmbrellaChain 1) 5%Z
           (mkEnvState 1 0 0 0) (mkEnvState 1 1 0 0) 1 default_params);
    reflexivity.
Defined.

(** X7.  Without distractors the observation returned by [step_env] does
    not depend on the key, and a call that completes the chain returns the
    same five results for every key. *)
Theorem no_distractor_step_ignores_key {PRNGKey : Type} `{JaxRandom PRNGKey}
    (self : UmbrellaChain) (key1 key2 : PRNGKey) (state : EnvState)
    (action : Z) (params : EnvParams) :
  n_distractor self = 0%nat ->
  let r1 := step_env self key1 state action params in
  let r2 := step_env self key2 state action params in
  step_obs r1 = step_obs r2 /\
  (time state + 1 = chain_length params -> r1 = r2).
Proof.
  intros Hn r1 r2.
  assert (Hs : step_state r1 = step_state r2)
    by (unfold r1, r2; now rewrite !step_state_eq).
  assert (Hobs : step_obs r1 = step_obs r2).
  { unfold r1, r2. rewrite !step_obs_eq.
    fold r1. fold r2. rewrite Hs, !get_obs_eq, Hn. reflexivity. }
  split; [exact Hobs|].
  intros Hfull.
  assert (Hrew : step_reward r1 = step_reward r2).
  { unfold r1, r2. rewrite !step_reward_eq. unfold chain_full.
    now rewrite (proj2 (Z.eqb_eq _ _) Hfull). }
  assert (Hdone : step_done r1 = step_done r2)
    by (unfold r1, r2; rewrite !step_done_eq; fold r1; fold r2;
        now rewrite Hs).
  assert (Hinfo : step_info r1 = step_info r2)
    by (unfold r1, r2; rewrite !step_info_eq; fold r1; fold r2;
        now rewrite Hs).
  destruct r1 as [[[[o1 s1] w1] d1] i1], r2 as [[[[o2 s2] w2] d2] i2].
  simpl in *. congruence.
Qed.

Lemma no_distractor_step_ignores_key_witness :
  step_env (mkUmbrellaChain 0) 4%Z (mkEnvState 1 1 0 9) 0 default_params
  = step_env (mkUmbrellaChain 0) 5%Z (mkEnvState 1 1 0 9) 0 default_params.
Proof.
  destruct (no_distractor_step_ignores_key (mkUmbrellaChain 0) 4%Z 5%Z
              (mkEnvState 1 1 0 9) 0 default_params eq_refl)
    as [_ Hall].
  apply Hall. reflexivity.
Defined.

(** X8.  [total_regret] is bookkeeping only: changing it in the input
    state changes nothing that [step_env] returns except the stored
    [total_regret] itself. *)
Theorem total_regret_is_hidden {PRNGKey : Type} `{JaxRandom PRNGKey}
    (self : UmbrellaChain) (key : PRNGKey) (state : EnvState) (action : Z)
    (params : EnvParams) (regret : Z) :
  let state2 :=
    mkEnvState (need_umbrella state) (has_umbrella state) regret
               (time state) in
  let r1 := step_env self key state action params in
  let r2 := step_env self key state2 action params in
  step_obs r1 = step_obs r2 /\
  step_reward r1 = step_reward r2 /\
  step_done r1 = step_done r2 /\
  step_info r1 = step_info r2 /\
  need_umbrella (step_state r1) = need_umbrella (step_state r2) /\
  has_umbrella (step_state r1) = has_umbrella (step_state r2) /\
  time (step_state r1) = time (step_state r2).
Proof.
  intros state2 r1 r2.
  assert (Hobs : step_obs r1 = step_obs r2).
  { unfold r1, r2. rewrite !step_obs_eq, !get_obs_eq, !step_state_eq.
    reflexivity. }
  assert (Hdone : step_done r1 = step_done r2).
  { unfold r1, r2. rewrite !step_done_eq. unfold is_terminal.
    now rewrite !step_time. }
  assert (Hinfo : step_info r1 = step_info r2).
  { unfold r1, r2. rewrite !step_info_eq. unfold discount, is_terminal.
    now rewrite !step_time. }
  split; [exact Hobs|].
  split; [unfold r1, r2; now rewrite !step_reward_eq|].
  split; [exact Hdone|]. split; [exact Hinfo|].
  unfold r1, r2. rewrite !step_state_eq. repeat split.
Qed.

(** X12.  With [chain_length = 1] the first call both sets the umbrella
    and completes the chain: from a state with [time = 0] the reward is +1
    when the action equals [need_umbrella] and -1 otherwise, the done flag
    is true, and a 32-bit action is stored as [has_umbrella]. *)
Theorem single_call_chain {PRNGKey : Type} `{JaxRandom PRNGKey}
    (self : UmbrellaChain) (key : PRNGKey) (state : EnvState) (action : Z)
    (params : EnvParams) :
  time state = 0 -> chain_length params = 1 ->
  let r := step_env self key state action params in
  step_reward r = (if action =? need_umbrella state then 1 else -1) /\
  step_done r = true /\
  (int32 action -> has_umbrella (step_state r) = action).
Proof.
  intros Ht Hc r. subst r.
  assert (Hcar : carried state action = action)
    by (unfold carried; rewrite Ht; reflexivity).
  split.
  - rewrite step_reward_eq. unfold chain_full, has_need.
    rewrite Hcar, Ht, Hc. reflexivity.
  - split.
    + rewrite step_done_eq. apply is_terminal_true.
      rewrite step_time, Ht, Hc. right. reflexivity.
    + intros Hact. rewrite step_state_eq. cbn [has_umbrella].
      rewrite Hcar. now apply jnp_int32_id.
Qed.

Lemma single_call_chain_witness :
  let r := step_env (mkUmbrellaChain 0) 3%Z (mkEnvState 0 1 0 0) 0
                    (mkEnvParams 1 100) in
  step_reward r = 1 /\ step_done r = true /\
  has_umbrella (step_state r) = 0.
Proof.
  cbv zeta.
  destruct (single_call_chain (mkUmbrellaChain 0) 3%Z (mkEnvState 0 1 0 0) 0
              (mkEnvParams 1 100) eq_refl eq_refl)
    as (Hrew & Hdone & Hhas).
  split; [exact Hrew|]. split; [exact Hdone|].
  apply Hhas. int32_values.
Defined.

(** ** Runs: further lemmas *)

Section RunLemmas.

Context {PRNGKey : Type} `{JaxRandom PRNGKey}.
Variables (self : UmbrellaChain) (params : EnvParams).

(** Call [n] of a run is [step_env] applied to input [n] and to the state
    reached after [n] calls. *)
Lemma rollout_lookup_input (P : nat -> EnvState -> Prop) :
  (forall (k : nat) (state : EnvState) (key : PRNGKey) (action : Z),
      P k state ->
      P (S k) (step_state (step_env self key state action params))) ->
  forall (inputs : list (PRNGKey * Z)) (k : nat) (state : EnvState)
         (n : nat) r,
    P k state ->
    rollout self params state inputs !! n = Some r ->
    exists (key : PRNGKey) (action : Z) (before : EnvState),
      inputs !! n = Some (key, action) /\
      P (k + n)%nat before /\
      r = step_env self key before action params.
Proof.
  intros Hstep inputs.
  induction inputs as [|[key action] rest IH]; intros k state n r HP Hn.
  - discriminate.
  - destruct n as [|n]; simpl in Hn.
    + injection Hn as <-. exists key, action, state.
      rewrite Nat.add_0_r. auto.
    + apply (IH (S k)) in Hn; [|exact (Hstep k state key action HP)].
      destruct Hn as (key' & action' & before & Hin & HP' & ->).
      exists key', action', before.
      rewrite Nat.add_succ_r. auto.
Qed.

(** The calls after call [n] form the run that starts from the state
    returned by call [n]. *)
Lemma rollout_lookup_later (inputs : list (PRNGKey * Z)) :
  forall (state : EnvState) (n j : nat) r,
    rollout self params state inputs !! n = Some r ->
    rollout self params state inputs !! (S n + j)%nat
    = rollout self params (step_state r) (drop (S n) inputs) !! j.
Proof.
  induction inputs as [|[key action] rest IH]; intros state n j r Hn.
  - discriminate.
  - destruct n as [|n]; simpl in Hn.
    + injection Hn as <-. reflexivity.
    + simpl. apply (IH _ n j r Hn).
Qed.

(** States of an episode whose first action is a 32-bit value [a1]. *)
Lemma episode_states (key0 key1 : PRNGKey) (a1 : Z)
    (rest : list (PRNGKey * Z)) (n : nat) r :
  int32 a1 ->
  rollout self params (snd (reset_env self key0 params))
          ((key1, a1) :: rest) !! n = Some r ->
  time (step_state r) = Z.of_nat n + 1 /\
  need_umbrella (step_state r)
  = need_umbrella (snd (reset_env self key0 params)) /\
  has_umbrella (step_state r) = a1 /\
  (total_regret (step_state r) = 0 \/
   total_regret (step_state r) = 2 /\ chain_length params <= Z.of_nat n + 1).
Proof.
  intros Ha1 Hn.
  set (s0 := snd (reset_env self key0 params)) in *.
  set (need0 := need_umbrella s0).
  assert (Hneed0 : int32 need0) by apply jnp_int32_range.
  pose (P := fun (k : nat) (s : EnvState) =>
    time s = Z.of_nat k /\ need_umbrella s = need0 /\
    (1 <= Z.of_nat k -> has_umbrella s = a1) /\
    (total_regret s = 0 \/
     total_regret s = 2 /\ chain_length params <= Z.of_nat k)).
  assert (Hstep : forall k s key action,
             (k = 0%nat -> action = a1) ->
             P k s ->
             P (S k) (step_state (step_env self key s action params))).
  { intros k s key action Hfirst (Hk & Hne & Hha & Hre).
    assert (Hcar : carried s action = a1).
    { unfold carried, lax_select.
      destruct (Z.eqb_spec (time s + 1) 1) as [E|E].
      - apply Hfirst. lia.
      - apply Hha. lia. }
    rewrite step_state_eq. unfold P. cbn [time need_umbrella has_umbrella
                                          total_regret].
    split; [lia|].
    split; [rewrite Hne; now apply jnp_int32_id|].
    split; [intros _; rewrite Hcar; now apply jnp_int32_id|].
    unfold chain_full. rewrite Hk.
    destruct (Z.eqb_spec (Z.of_nat k + 1) (chain_length params)) as [E|E];
      destruct (has_need s action); cbn [andb negb Z.b2z];
      destruct Hre as [-> | [-> Hle]];
      try (left; reflexivity);
      try (right; split; [reflexivity | lia]);
      lia. }
  (* the first call uses [a1]; the later ones may use any action *)
  destruct n as [|n].
  - change (Some (step_env self key1 s0 a1 params) = Some r) in Hn.
    injection Hn as <-.
    destruct (Hstep 0%nat s0 key1 a1 (fun _ => eq_refl)) as (Ht & Hne & Hha & Hre).
    { unfold P. repeat split; try reflexivity; try lia. now left. }
    split; [exact Ht|]. split; [exact Hne|].
    split; [apply Hha; lia | exact Hre].
  - change (rollout self params
              (step_state (step_env self key1 s0 a1 params)) rest !! n
            = Some r) in Hn.
    pose (P' := fun (k : nat) (s : EnvState) => P (S k) s).
    assert (Hstep' : forall k s key action,
               P' k s ->
               P' (S k) (step_state (step_env self key s action params))).
    { intros k s key action HP. unfold P'. apply Hstep; [lia | exact HP]. }
    assert (HP1 : P' 0%nat (step_state (step_env self key1 s0 a1 params))).
    { unfold P'. apply Hstep; [reflexivity|].
      unfold P. repeat split; try reflexivity; try lia. now left. }
    destruct (rollout_invariant self params P' Hstep' rest 0%nat _ n r HP1 Hn)
      as (key & action & before & HP & ->).
    destruct (Hstep' _ _ key action HP) as (Ht & Hne & Hha & Hre).
    split; [lia|]. split; [exact Hne|].
    split; [apply Hha; lia|].
    destruct Hre as [E | [E Hle]]; [left | right; split]; auto; lia.
Qed.

End RunLemmas.

(** ** Runs: regret, termination and the declared spaces *)

(** X3.  Along every run from a reset state, whatever the parameters and
    the actions, [total_regret] is 0 or 2 after each call, is 0 after each
    call that leaves [time] below [chain_length], and never decreases from
    one call to a later one. *)
Theorem run_regret_zero_or_two {PRNGKey : Type} `{JaxRandom PRNGKey}
    (self : UmbrellaChain) (params : EnvParams) (key0 : PRNGKey)
    (inputs : list (PRNGKey * Z)) :
  let s0 := snd (reset_env self key0 params) in
  let run := rollout self params s0 inputs in
  (forall (n : nat) r, run !! n = Some r ->
     (total_regret (step_state r) = 0 \/ total_regret (step_state r) = 2) /\
     (Z.of_nat n + 1 < chain_length params ->
        total_regret (step_state r) = 0)) /\
  (forall (n m : nat) r r', (n <= m)%nat ->
     run !! n = Some r -> run !! m = Some r' ->
     total_regret (step_state r) <= total_regret (step_state r')).
Proof.
  intros s0 run.
  pose (P := fun (k : nat) (s : EnvState) =>
    time s = Z.of_nat k /\
    (total_regret s = 0 \/
     total_regret s = 2 /\ chain_length params <= Z.of_nat k)).
  assert (Hstep : forall k s key action,
             P k s ->
             P (S k) (step_state (step_env self key s action params))).
  { intros k s key action (Hk & Hre).
    rewrite step_state_eq. unfold P. cbn [time total_regret].
    split; [lia|].
    unfold chain_full. rewrite Hk.
    destruct (Z.eqb_spec (Z.of_nat k + 1) (chain_length params)) as [E|E];
      destruct (has_need s action); cbn [andb negb Z.b2z];
      destruct Hre as [-> | [-> Hle]];
      try (left; reflexivity);
      try (right; split; [reflexivity | lia]);
      lia. }
  assert (HP0 : P 0%nat s0) by (split; [reflexivity | now left]).
  assert (Hall : forall (n : nat) r, run !! n = Some r ->
            P (S n) (step_state r)).
  { intros n r Hn.
    destruct (rollout_invariant self params P Hstep inputs 0%nat s0 n r
                HP0 Hn) as (key & action & before & HP & ->).
    exact (Hstep _ _ key action HP). }
  split.
  - intros n r Hn. destruct (Hall n r Hn) as (_ & Hre).
    split; [destruct Hre as [E | [E _]]; auto|].
    intros Hlt. destruct Hre as [E | [_ Hle]]; [exact E | lia].
  - intros n m r r' Hnm Hn Hm.
    destruct (Hall n r Hn) as (Ht & Hre).
    destruct (Hall m r' Hm) as (_ & Hre').
    destruct Hre as [E | [E Hle]].
    + rewrite E. destruct Hre' as [-> | [-> _]]; lia.
    + destruct (Nat.eq_dec n m) as [<- | Hne].
      * rewrite Hn in Hm. injection Hm as <-. lia.
      * replace m with (S n + (m - S n))%nat in Hm by lia.
        unfold run in Hm.
        rewrite (rollout_lookup_later self params inputs s0 n _ r Hn) in Hm.
        pose (Q := fun (k : nat) (s : EnvState) =>
          chain_length params <= time s /\ total_regret s = 2).
        assert (HQ : forall k s key action,
                   Q k s ->
                   Q (S k) (step_state (step_env self key s action params))).
        { intros k s key action (Hk & Hr2).
          rewrite step_state_eq. unfold Q. cbn [time total_regret].
          split; [lia|]. unfold chain_full.
          rewrite (proj2 (Z.eqb_neq _ _)) by lia.
          rewrite Hr2. reflexivity. }
        assert (HQ0 : Q 0%nat (step_state r)) by (split; [lia | exact E]).
        destruct (rollout_invariant self params Q HQ _ 0%nat _ _ r' HQ0 Hm)
          as (key & action & before & HQb & ->).
        destruct (HQ _ _ key action HQb) as (_ & ->). lia.
Qed.

Lemma run_regret_zero_or_two_witness :
  let self := mkUmbrellaChain 0 in
  let params := mkEnvParams 2 100 in
  let s0 := snd (reset_env self 0%Z params) in
  let run := rollout self params s0 [(1, 0); (2, 0); (3, 0)] in
  exists r1 r3,
    run !! 0%nat = Some r1 /\ run !! 2%nat = Some r3 /\
    total_regret (step_state r1) = 0 /\
    total_regret (step_state r1) <= total_regret (step_state r3).
Proof.
  cbv zeta.
  destruct (run_regret_zero_or_two (mkUmbrellaChain 0) (mkEnvParams 2 100)
              0%Z [(1, 0); (2, 0); (3, 0)])
    as (Hzero & Hmono).
  eexists. eexists.
  split; [reflexivity|]. split; [reflexivity|].
  split.
  - destruct (Hzero 0%nat _ eq_refl) as [_ Hbefore].
    apply Hbefore. reflexivity.
  - apply (Hmono 0%nat 2%nat); [lia | reflexivity | reflexivity].
Defined.

(** X4.  The step limit is absorbing: from any state whose [time] has
    reached [max_steps_in_episode], every later call of [step_env] returns
    [done = true]. *)
Theorem step_limit_is_absorbing {PRNGKey : Type} `{JaxRandom PRNGKey}
    (self : UmbrellaChain) (params : EnvParams) (state : EnvState)
    (inputs : list (PRNGKey * Z)) :
  max_steps_in_episode params <= time state ->
  forall (n : nat) r,
    rollout self params state inputs !! n = Some r ->
    step_done r = true.
Proof.
  intros Hmax n r Hn.
  pose (P := fun (k : nat) (s : EnvState) =>
    max_steps_in_episode params <= time s).
  assert (Hstep : forall k s key action,
             P k s ->
             P (S k) (step_state (step_env self key s action params))).
  { intros k s key action Hk. unfold P in *. rewrite step_time. lia. }
  destruct (rollout_invariant self params P Hstep inputs 0%nat state n r
              Hmax Hn) as (key & action & before & HP & ->).
  rewrite step_done_eq. apply is_terminal_true. left.
  exact (Hstep _ _ key action HP).
Qed.

Lemma step_limit_is_absorbing_witness :
  exists r,
    rollout (mkUmbrellaChain 0) (mkEnvParams 3 5) (mkEnvState 1 1 0 5)
            [(1, 0); (2, 0)] !! 1%nat = Some r /\
    step_done r = true.
Proof.
  eexists. split; [reflexivity|].
  apply (step_limit_is_absorbing (mkUmbrellaChain 0) (mkEnvParams 3 5)
           (mkEnvState 1 1 0 5) [(1, 0); (2, 0)] ltac:(simpl; lia) 1%nat).
  reflexivity.
Defined.

Lemma reset_env_need_bit {PRNGKey : Type} `{JaxRandom PRNGKey}
    (self : UmbrellaChain) (key : PRNGKey) (params : EnvParams) :
  need_umbrella (snd (reset_env self key params)) = 0
  \/ need_umbrella (snd (reset_env self key params)) = 1.
Proof.
  change (need_umbrella (snd (reset_env self key params)))
    with (jnp_int32 (Z.b2z (random_bernoulli (random_split key 3 0)))).
  rewrite jnp_int32_b2z.
  destruct (random_bernoulli (random_split key 3 0)); [right | left];
    reflexivity.
Qed.

Lemma reset_env_has_bit {PRNGKey : Type} `{JaxRandom PRNGKey}
    (self : UmbrellaChain) (key : PRNGKey) (params : EnvParams) :
  has_umbrella (snd (reset_env self key params)) = 0
  \/ has_umbrella (snd (reset_env self key params)) = 1.
Proof.
  change (has_umbrella (snd (reset_env self key params)))
    with (jnp_int32 (Z.b2z (random_bernoulli (random_split key 3 1)))).
  rewrite jnp_int32_b2z.
  destruct (random_bernoulli (random_split key 3 1)); [right | left];
    reflexivity.
Qed.

Lemma int32_bit (z : Z) : z = 0 \/ z = 1 -> int32 z.
Proof. intros [-> | ->]; vm_compute; split; discriminate. Qed.

(** Every element of a run is the result of a call of [step_env]. *)
Lemma rollout_elem_is_step {PRNGKey : Type} `{JaxRandom PRNGKey}
    (self : UmbrellaChain) (params : EnvParams) (state : EnvState)
    (inputs : list (PRNGKey * Z)) (n : nat) r :
  rollout self params state inputs !! n = Some r ->
  exists (key : PRNGKey) (action : Z) (before : EnvState),
    r = step_env self key before action params.
Proof.
  intros Hn.
  destruct (rollout_invariant self params (fun _ _ => True)
              (fun _ _ _ _ _ => I) inputs 0%nat state n r I Hn)
    as (key & action & before & _ & ->).
  eauto.
Qed.

(** X11.  In an episode started by [reset_env] with a positive
    [chain_length] and a first action in [{0, 1}], the observation returned
    by every call up to the one that completes the chain lies in
    [observation_space]. *)
Theorem episode_observations_in_space {PRNGKey : Type} `{JaxRandom PRNGKey}
    (self : UmbrellaChain) (params : EnvParams) (key0 key1 : PRNGKey)
    (a1 : Z) (rest : list (PRNGKey * Z)) :
  0 < chain_length params ->
  a1 = 0 \/ a1 = 1 ->
  let s0 := snd (reset_env self key0 params) in
  let run := rollout self params s0 ((key1, a1) :: rest) in
  forall (n : nat) r, run !! n = Some r ->
    Z.of_nat n + 1 <= chain_length params ->
    in_box (observation_space self params) (step_obs r).
Proof.
  intros Hc Ha1 s0 run n r Hn Hle.
  destruct (episode_states self params key0 key1 a1 rest n r
              (int32_bit _ Ha1) Hn) as (Ht & Hne & Hha & _).
  destruct (rollout_elem_is_step self params _ _ n r Hn)
    as (key & action & before & ->).
  rewrite step_obs_eq. apply get_obs_in_box_of_entries.
  - apply float_of_bit_in_unit. rewrite Hne. apply reset_env_need_bit.
  - apply float_of_bit_in_unit. rewrite Hha. exact Ha1.
  - apply remaining_fraction_bounds; [rewrite Ht; lia | exact Hc].
Qed.

Lemma episode_observations_in_space_witness :
  let self := mkUmbrellaChain 2 in
  let params := mkEnvParams 3 100 in
  let s0 := snd (reset_env self 0%Z params) in
  let run := rollout self params s0 [(1, 1); (2, 0); (3, 0)] in
  exists r, run !! 2%nat = Some r /\
            in_box (observation_space self params) (step_obs r).
Proof.
  cbv zeta. eexists. split; [reflexivity|].
  apply (episode_observations_in_space (mkUmbrellaChain 2)
           (mkEnvParams 3 100) 0%Z 1%Z 1 [(2, 0); (3, 0)]
           ltac:(simpl; lia) (or_intror eq_refl) 2%nat).
  - reflexivity.
  - simpl. lia.
Defined.

(** X13.  When [max_steps_in_episode < chain_length] the episode ends at
    the step limit before the chain completes: for every call up to the
    limit the reward is the noise draw of that call's key, [total_regret]
    stays 0, and [done] is true exactly at call [max_steps_in_episode]. *)
Theorem short_episode_pays_noise_only {PRNGKey : Type} `{JaxRandom PRNGKey}
    (self : UmbrellaChain) (params : EnvParams) (key0 : PRNGKey)
    (inputs : list (PRNGKey * Z)) :
  max_steps_in_episode params < chain_length params ->
  let s0 := snd (reset_env self key0 params) in
  let run := rollout self params s0 inputs in
  forall (n : nat) r (key : PRNGKey) (action : Z),
    run !! n = Some r -> inputs !! n = Some (key, action) ->
    Z.of_nat n + 1 <= max_steps_in_episode params ->
    step_reward r
    = (if random_bernoulli (random_split key 2 0) then 1 else -1) /\
    total_regret (step_state r) = 0 /\
    step_done r = (Z.of_nat n + 1 =? max_steps_in_episode params).
Proof.
  intros Hshort s0 run n r key action Hn Hin Hle.
  pose (P := fun (k : nat) (s : EnvState) =>
    time s = Z.of_nat k /\
    (Z.of_nat k < chain_length params -> total_regret s = 0)).
  assert (Hstep : forall k s key' action',
             P k s ->
             P (S k) (step_state (step_env self key' s action' params))).
  { intros k s key' action' (Hk & Hre).
    rewrite step_state_eq. unfold P. cbn [time total_regret].
    split; [lia|]. intros Hlt. unfold chain_full.
    rewrite (proj2 (Z.eqb_neq _ _)) by lia.
    rewrite Hre by lia. reflexivity. }
  assert (HP0 : P 0%nat s0) by (split; reflexivity).
  destruct (rollout_lookup_input self params P Hstep inputs 0%nat s0 n r
              HP0 Hn) as (key' & action' & before & Hin' & HP & ->).
  rewrite Hin in Hin'. injection Hin' as <- <-.
  destruct (Hstep _ _ key action HP) as (Ht' & Hre').
  destruct HP as (Ht & _). simpl in Ht.
  split; [|split].
  - rewrite step_reward_eq. unfold chain_full.
    rewrite (proj2 (Z.eqb_neq _ _)) by lia.
    destruct (random_bernoulli _); reflexivity.
  - apply Hre'. lia.
  - rewrite step_done_eq.
    destruct (Z.eqb_spec (Z.of_nat n + 1) (max_steps_in_episode params)).
    + apply is_terminal_true. rewrite Ht'. lia.
    + apply is_terminal_false. rewrite Ht'. lia.
Qed.

Lemma short_episode_pays_noise_only_witness :
  let self := mkUmbrellaChain 0 in
  let params := mkEnvParams 5 2 in
  let s0 := snd (reset_env self 0%Z params) in
  let run := rollout self params s0 [(1, 0); (2, 1)] in
  exists r, run !! 1%nat = Some r /\
            total_regret (step_state r) = 0 /\ step_done r = true.
Proof.
  cbv zeta. eexists. split; [reflexivity|].
  destruct (short_episode_pays_noise_only (mkUmbrellaChain 0)
              (mkEnvParams 5 2) 0%Z [(1, 0); (2, 1)] ltac:(simpl; lia)
              1%nat _ 2%Z 1 eq_refl eq_refl ltac:(simpl; lia))
    as (_ & Hreg & Hdone).
  split; [exact Hreg | exact Hdone].
Defined.

(** X14.  In an episode started by [reset_env] with a first action taken
    from [action_space], the fields [need_umbrella], [has_umbrella] and [total_regret]
    of every returned state lie in the spaces declared by [state_space];
    the state as a whole lies in [state_space] exactly while [time] is
    below [max_steps_in_episode], so the state returned at the step limit
    is outside the declared space.  The reset state lies in it exactly
    when [max_steps_in_episode] is positive. *)
Theorem episode_states_and_state_space {PRNGKey : Type} `{JaxRandom PRNGKey}
    (self : UmbrellaChain) (params : EnvParams) (key0 key1 : PRNGKey)
    (a1 : Z) (rest : list (PRNGKey * Z)) :
  in_discrete (action_space self params) a1 ->
  let s0 := snd (reset_env self key0 params) in
  let run := rollout self params s0 ((key1, a1) :: rest) in
  let space := state_space self params in
  (in_state_space space s0 <-> 0 < max_steps_in_episode params) /\
  (forall (n : nat) r, run !! n = Some r ->
     in_discrete (space_need_umbrella space) (need_umbrella (step_state r)) /\
     in_discrete (space_has_umbrella space) (has_umbrella (step_state r)) /\
     in_discrete (space_total_regret space) (total_regret (step_state r)) /\
     (in_state_space space (step_state r)
      <-> Z.of_nat n + 1 < max_steps_in_episode params)).
Proof.
  intros Hact s0 run space.
  assert (Ha1 : a1 = 0 \/ a1 = 1)
    by (unfold in_discrete, action_space in Hact; simpl in Hact; lia).
  pose proof (reset_env_need_bit self key0 params) as Hneed.
  pose proof (reset_env_has_bit self key0 params) as Hhas.
  fold s0 in Hneed, Hhas.
  split.
  - unfold in_state_space, in_discrete, space, state_space.
    cbn [space_need_umbrella space_has_umbrella space_total_regret
         space_time categories].
    change (total_regret s0) with 0. change (time s0) with 0.
    split; [intros (_ & _ & _ & Ht); lia|].
    intros Hm. repeat split; lia.
  - intros n r Hn.
    destruct (episode_states self params key0 key1 a1 rest n r
                (int32_bit _ Ha1) Hn) as (Ht & Hne & Hha & Hre).
    fold s0 in Hne.
    unfold in_state_space, in_discrete, space, state_space.
    cbn [space_need_umbrella space_has_umbrella space_total_regret
         space_time categories].
    rewrite Hne, Hha, Ht.
    assert (Hr : 0 <= total_regret (step_state r) < 1000)
      by (destruct Hre as [-> | [-> _]]; lia).
    split; [lia|]. split; [lia|]. split; [exact Hr|].
    split; [intros (_ & _ & _ & Hlt); lia|].
    intros Hlt. repeat split; lia.
Qed.

Lemma episode_states_and_state_space_witness :
  let self := mkUmbrellaChain 0 in
  let params := mkEnvParams 5 2 in
  let s0 := snd (reset_env self 0%Z params) in
  let run := rollout self params s0 [(1, 0); (2, 1)] in
  in_state_space (state_space self params) s0 /\
  exists r, run !! 1%nat = Some r /\
            ~ in_state_space (state_space self params) (step_state r).
Proof.
  cbv zeta.
  destruct (episode_states_and_state_space (mkUmbrellaChain 0)
              (mkEnvParams 5 2) 0%Z 1%Z 0 [(2, 1)]
              ltac:(unfold in_discrete; simpl; lia))
    as (Hreset & Hrun).
  split; [apply Hreset; simpl; lia|].
  eexists. split; [reflexivity|].
  destruct (Hrun 1%nat _ eq_refl) as (_ & _ & _ & Hiff).
  intros Hin. apply Hiff in Hin. simpl in Hin. lia.
Defined.
